(** * TaskOff: action model, countdown scheduler and action executor

    A shallow embedding of the TaskOff core:
    - [Py]: the Python values the program handles (parsed JSON, action
      parameters), exceptions, and the builtins the code relies on;
    - [ActionModel]: [src/models/action.py];
    - [Scheduler]: [src/core/scheduler.py];
    - [Executor]: [src/automation/executor.py] and the text-delivery
      functions of [src/automation/keyboard_control.py].
    The theorems about them follow the definitions. *)

From Stdlib Require Import ZArith NArith List Ascii String Lia.
From Stdlib Require Import Floats.SpecFloat.
From stdpp Require Import base numbers list strings pretty.

Set Warnings "-register-all".
Local Open Scope Z_scope.

(** ** Python values *)
Module Py.

(** A Python [str] is a sequence of Unicode code points. *)
Definition pystr := list N.

(** An ASCII literal as a Python string. *)
Definition py (s : string) : pystr :=
  map (fun c => N_of_ascii c) (list_ascii_of_string s).

(** [==] on two strings. *)
Fixpoint pystr_eqb (s t : pystr) : bool :=
  match s, t with
  | [], [] => true
  | c :: s', d :: t' => N.eqb c d && pystr_eqb s' t'
  | _, _ => false
  end.

(** The exceptions that the modelled code can meet.  [DriverError]
    stands for whatever an external call (pyautogui, pyperclip,
    [time.sleep]) raises. *)
Inductive exn : Type :=
| AttributeError
| KeyError
| ValueError
| TypeError
| DriverError.

(** A computation that returns or raises. *)
Inductive result (A : Type) : Type :=
| Ok (a : A)
| Raise (e : exn).
Arguments Ok {A} a.
Arguments Raise {A} e.

Definition bind {A B} (r : result A) (k : A -> result B) : result B :=
  match r with
  | Ok a => k a
  | Raise e => Raise e
  end.

Notation "'let*' x ':=' e 'in' k" := (bind e (fun x => k))
  (at level 10, x name, e at level 100, k at level 200).

(** The values found in parsed JSON and in action parameters. A [dict]
    keeps its entries in insertion order; its keys are strings. *)
Inductive pyval : Type :=
| PNone
| PBool (b : bool)
| PInt (z : Z)
| PFloat (f : spec_float)
| PStr (s : pystr)
| PList (l : list pyval)
| PDict (d : list (pystr * pyval)).

(** Truth value testing ([if v], [not v]). *)
Definition truthy (v : pyval) : bool :=
  match v with
  | PNone => false
  | PBool b => b
  | PInt z => negb (Z.eqb z 0)
  | PFloat f => negb (SFeqb f (S754_zero false))
  | PStr s => match s with [] => false | _ => true end
  | PList l => match l with [] => false | _ => true end
  | PDict d => match d with [] => false | _ => true end
  end.

(** [v == s] for a string [s]: a string equals strings only. *)
Definition eq_str (v : pyval) (s : pystr) : bool :=
  match v with
  | PStr t => pystr_eqb t s
  | _ => false
  end.

(** [d[k]] as an option, on the entries of a dict. *)
Fixpoint lookup (d : list (pystr * pyval)) (k : pystr) : option pyval :=
  match d with
  | [] => None
  | (k', v) :: d' => if pystr_eqb k' k then Some v else lookup d' k
  end.

(** [v.get(k, default)]: only a dict has the method. *)
Definition get (v : pyval) (k : pystr) (default : pyval) : result pyval :=
  match v with
  | PDict d => Ok (match lookup d k with Some x => x | None => default end)
  | _ => Raise AttributeError
  end.

(** [v[k]] for a string [k]: a dict is searched, no other value takes
    a string subscript. *)
Definition subscript (v : pyval) (k : pystr) : result pyval :=
  match v with
  | PDict d =>
      match lookup d k with
      | Some x => Ok x
      | None => Raise KeyError
      end
  | _ => Raise TypeError
  end.

(** [iter(v)] run to the end: the elements of a list, the keys of a
    dict, the characters of a string; other values are not iterable. *)
Definition iterate (v : pyval) : result (list pyval) :=
  match v with
  | PList l => Ok l
  | PDict d => Ok (map (fun kv => PStr (fst kv)) d)
  | PStr s => Ok (map (fun c => PStr [c]) s)
  | _ => Raise TypeError
  end.

(** [v > 0] for the numeric types; other types do not compare with an
    [int]. *)
Definition gt_zero (v : pyval) : result bool :=
  match v with
  | PBool b => Ok b
  | PInt z => Ok (Z.ltb 0 z)
  | PFloat f => Ok (SFltb (S754_zero false) f)
  | _ => Raise TypeError
  end.

(** [abs(v)]. *)
Definition abs (v : pyval) : result pyval :=
  match v with
  | PBool b => Ok (PInt (if b then 1 else 0))
  | PInt z => Ok (PInt (Z.abs z))
  | PFloat f => Ok (PFloat (SFabs f))
  | _ => Raise TypeError
  end.

(** [len(v)]. *)
Definition len (v : pyval) : result Z :=
  match v with
  | PStr s => Ok (Z.of_nat (length s))
  | PList l => Ok (Z.of_nat (length l))
  | PDict d => Ok (Z.of_nat (length d))
  | _ => Raise TypeError
  end.

(** [sep.join(v)]: every element has to be a string. *)
Fixpoint join_strs (sep : pystr) (l : list pyval) : result pystr :=
  match l with
  | [] => Ok []
  | PStr s :: l' =>
      match l' with
      | [] => Ok s
      | _ => bind (join_strs sep l') (fun r => Ok (s ++ sep ++ r))
      end
  | _ :: _ => Raise TypeError
  end.

Definition join (sep : pystr) (v : pyval) : result pystr :=
  bind (iterate v) (join_strs sep).

Section Str.
(** [str()] of a float, a list or a dict (their [repr] algorithms are
    not modelled). *)
Variable repr_other : pyval -> pystr.

(** [str(v)], which is what an f-string field [{v}] renders. *)
Definition str (v : pyval) : pystr :=
  match v with
  | PNone => py "None"
  | PBool true => py "True"
  | PBool false => py "False"
  | PInt z => py (pretty z)
  | PStr s => s
  | _ => repr_other v
  end.
End Str.

End Py.

(** ** The action model ([src/models/action.py]) *)
Module ActionModel.
Import Py.

Inductive ActionType : Type :=
| MOUSE_CLICK
| MOUSE_DOUBLE_CLICK
| MOUSE_RIGHT_CLICK
| MOUSE_MOVE
| MOUSE_DRAG
| MOUSE_SCROLL
| KEYBOARD_TYPE
| KEYBOARD_PRESS
| KEYBOARD_HOTKEY
| DELAY.

(** The [.value] of a member. *)
Definition value (t : ActionType) : pystr :=
  match t with
  | MOUSE_CLICK => py "mouse_click"
  | MOUSE_DOUBLE_CLICK => py "mouse_double_click"
  | MOUSE_RIGHT_CLICK => py "mouse_right_click"
  | MOUSE_MOVE => py "mouse_move"
  | MOUSE_DRAG => py "mouse_drag"
  | MOUSE_SCROLL => py "mouse_scroll"
  | KEYBOARD_TYPE => py "keyboard_type"
  | KEYBOARD_PRESS => py "keyboard_press"
  | KEYBOARD_HOTKEY => py "keyboard_hotkey"
  | DELAY => py "delay"
  end.

(** The members, in definition order. *)
Definition members : list ActionType :=
  [MOUSE_CLICK; MOUSE_DOUBLE_CLICK; MOUSE_RIGHT_CLICK; MOUSE_MOVE;
   MOUSE_DRAG; MOUSE_SCROLL; KEYBOARD_TYPE; KEYBOARD_PRESS;
   KEYBOARD_HOTKEY; DELAY].

(** [ActionType(v)]: the member whose value is [v], or [ValueError]. *)
Definition ActionType_call (v : pyval) : result ActionType :=
  match find (fun t => eq_str v (value t)) members with
  | Some t => Ok t
  | None => Raise ValueError
  end.

(** The dataclass [Action]. Python checks none of the annotations, so
    a field holds whatever value it was given. *)
Record Action : Type := mkAction {
  action_type : ActionType;
  params : pyval;
  description : pyval;
  id : pyval;
  enabled : pyval
}.

Definition set_description (self : Action) (d : pyval) : Action :=
  {| action_type := action_type self; params := params self;
     description := d; id := id self; enabled := enabled self |}.

(** [text[:20] + "..."], reached when [len(text) > 20]: a string is
    cut; a list cannot be joined to a string, and a dict takes no
    slice. *)
Definition truncate20 (text : pyval) : result pyval :=
  match text with
  | PStr s => Ok (PStr (take 20 s ++ py "..."))
  | _ => Raise TypeError
  end.

Definition Action_to_dict (self : Action) : pyval :=
  PDict [(py "id", id self);
         (py "action_type", PStr (value (action_type self)));
         (py "params", params self);
         (py "description", description self);
         (py "enabled", enabled self)].

(** The dataclass [ActionSequence]. *)
Record ActionSequence : Type := mkActionSequence {
  name : pyval;
  actions : list Action
}.

(** The default [name], [未命名序列]. *)
Definition default_name : pyval :=
  PStr [26410; 21629; 21517; 24207; 21015]%N.

Definition add_action (self : ActionSequence) (action : Action)
    : ActionSequence :=
  {| name := name self; actions := actions self ++ [action] |}.

Definition remove_action (self : ActionSequence) (action_id : pystr)
    : ActionSequence :=
  {| name := name self;
     actions :=
       List.filter (fun a => negb (eq_str (id a) action_id))
         (actions self) |}.

(** [l.insert(i, x)] for [0 <= i]. *)
Definition list_insert_at {A} (i : nat) (x : A) (l : list A) : list A :=
  take i l ++ x :: drop i l.

Definition move_action (self : ActionSequence) (from_index to_index : Z)
    : ActionSequence :=
  let n := Z.of_nat (length (actions self)) in
  if (Z.leb 0 from_index && Z.ltb from_index n
      && (Z.leb 0 to_index && Z.ltb to_index n))%bool
  then
    match actions self !! Z.to_nat from_index with
    | Some action =>
        {| name := name self;
           actions :=
             list_insert_at (Z.to_nat to_index) action
               (delete (Z.to_nat from_index) (actions self)) |}
    | None => self
    end
  else self.

Fixpoint get_action_in (l : list Action) (action_id : pystr)
    : option Action :=
  match l with
  | [] => None
  | action :: l' =>
      if eq_str (id action) action_id then Some action
      else get_action_in l' action_id
  end.

Definition get_action (self : ActionSequence) (action_id : pystr)
    : option Action :=
  get_action_in (actions self) action_id.

Definition clear (self : ActionSequence) : ActionSequence :=
  {| name := name self; actions := [] |}.

Definition ActionSequence_to_dict (self : ActionSequence) : pyval :=
  PDict [(py "name", name self);
         (py "actions", PList (map Action_to_dict (actions self)))].

Section Description.
Variable repr_other : pyval -> pystr.
Let str := Py.str repr_other.

(** The rendering [({x}, {y})] that five kinds share, after
    [prefix]. *)
Definition at_position (prefix : pystr) (params : pyval) : result pystr :=
  let* x := get params (py "x") (PInt 0) in
  let* y := get params (py "y") (PInt 0) in
  Ok (prefix ++ str x ++ py ", " ++ str y ++ py ")").

(** [Action._generate_description]. The literals are written as code
    points, the text beside them. The [if]/[elif] chain covers the ten
    kinds, so the closing [return self.action_type.get_display_name()]
    is never reached. *)
Definition _generate_description (self : Action) : result pystr :=
  let params := params self in
  match action_type self with
  | MOUSE_CLICK =>
      (* "点击位置 (" *)
      at_position [28857; 20987; 20301; 32622; 32; 40]%N params
  | MOUSE_DOUBLE_CLICK =>
      (* "双击位置 (" *)
      at_position [21452; 20987; 20301; 32622; 32; 40]%N params
  | MOUSE_RIGHT_CLICK =>
      (* "右键点击 (" *)
      at_position [21491; 38190; 28857; 20987; 32; 40]%N params
  | MOUSE_MOVE =>
      (* "移动到 (" *)
      at_position [31227; 21160; 21040; 32; 40]%N params
  | MOUSE_DRAG =>
      (* "拖拽到 (" *)
      at_position [25302; 25341; 21040; 32; 40]%N params
  | MOUSE_SCROLL =>
      let* amount := get params (py "amount") (PInt 0) in
      let* up := gt_zero amount in
      (* "向上", "向下" *)
      let direction : pystr :=
        if up then [21521; 19978]%N else [21521; 19979]%N in
      let* n := abs amount in
      (* "滚动 {direction} {abs(amount)} 格" *)
      Ok ([28378; 21160; 32]%N ++ direction ++ py " " ++ str n
          ++ [32; 26684]%N)
  | KEYBOARD_TYPE =>
      let* text := get params (py "text") (PStr []) in
      let* n := len text in
      let* text := (if Z.ltb 20 n then truncate20 text else Ok text) in
      (* "输入: {text}" *)
      Ok ([36755; 20837; 58; 32]%N ++ str text)
  | KEYBOARD_PRESS =>
      let* key := get params (py "key") (PStr []) in
      (* "按键: {key}" *)
      Ok ([25353; 38190; 58; 32]%N ++ str key)
  | KEYBOARD_HOTKEY =>
      let* keys := get params (py "keys") (PList []) in
      let* joined := join (py "+") keys in
      (* "组合键: {'+'.join(keys)}" *)
      Ok ([32452; 21512; 38190; 58; 32]%N ++ joined)
  | DELAY =>
      let* seconds := get params (py "seconds") (PInt 0) in
      (* "等待 {seconds} 秒" *)
      Ok ([31561; 24453; 32]%N ++ str seconds ++ [32; 31186]%N)
  end.

(** [Action(action_type, params, description, id, enabled)]: the
    generated [__init__] followed by [__post_init__]. *)
Definition Action_new (action_type : ActionType)
    (params description id enabled : pyval) : result Action :=
  let self := mkAction action_type params description id enabled in
  if truthy description then Ok self
  else
    let* d := _generate_description self in
    Ok (set_description self (PStr d)).

Definition update_description (self : Action) : result Action :=
  let* d := _generate_description self in
  Ok (set_description self (PStr d)).

(** [Action.from_dict(data)]; [uuid] is [str(uuid.uuid4())[:8]] as
    this call draws it. *)
Definition Action_from_dict (uuid : pystr) (data : pyval) : result Action :=
  let* id := get data (py "id") (PStr uuid) in
  let* kind_value := subscript data (py "action_type") in
  let* kind := ActionType_call kind_value in
  let* params := get data (py "params") (PDict []) in
  let* description := get data (py "description") (PStr []) in
  let* enabled := get data (py "enabled") (PBool true) in
  Action_new kind params description id enabled.

(** The loop of [ActionSequence.from_dict]; [uuid i] is the
    identifier drawn while entry [i] is read. *)
Fixpoint load_actions (uuid : nat -> pystr) (i : nat)
    (entries : list pyval) (sequence : ActionSequence)
    : result ActionSequence :=
  match entries with
  | [] => Ok sequence
  | action_data :: rest =>
      let* action := Action_from_dict (uuid i) action_data in
      load_actions uuid (S i) rest (add_action sequence action)
  end.

Definition ActionSequence_from_dict (uuid : nat -> pystr) (data : pyval)
    : result ActionSequence :=
  let* name := get data (py "name") default_name in
  let sequence := mkActionSequence name [] in
  let* found := get data (py "actions") (PList []) in
  let* entries := iterate found in
  load_actions uuid 0 entries sequence.
End Description.

(** The factory functions. Each builds the action through the
    constructor with no description, the drawn identifier [uuid] and
    [enabled = True]; the arguments that the source defaults ([button],
    [duration], [x], [y], [interval], [presses]) are given by the
    caller here. *)
Section Factories.
Variable repr_other : pyval -> pystr.
Variable uuid : pystr.

Definition create (kind : ActionType) (params : list (pystr * pyval))
    : result Action :=
  Action_new repr_other kind (PDict params) (PStr []) (PStr uuid) (PBool true).

Definition create_mouse_click (x y button : pyval) : result Action :=
  create MOUSE_CLICK [(py "x", x); (py "y", y); (py "button", button)].

Definition create_mouse_double_click (x y : pyval) : result Action :=
  create MOUSE_DOUBLE_CLICK [(py "x", x); (py "y", y)].

Definition create_mouse_right_click (x y : pyval) : result Action :=
  create MOUSE_RIGHT_CLICK [(py "x", x); (py "y", y)].

Definition create_mouse_move (x y duration : pyval) : result Action :=
  create MOUSE_MOVE [(py "x", x); (py "y", y); (py "duration", duration)].

Definition create_mouse_drag (x y duration : pyval) : result Action :=
  create MOUSE_DRAG [(py "x", x); (py "y", y); (py "duration", duration)].

Definition create_mouse_scroll (amount x y : pyval) : result Action :=
  create MOUSE_SCROLL [(py "amount", amount); (py "x", x); (py "y", y)].

Definition create_keyboard_type (text interval : pyval) : result Action :=
  create KEYBOARD_TYPE [(py "text", text); (py "interval", interval)].

Definition create_keyboard_press (key presses : pyval) : result Action :=
  create KEYBOARD_PRESS [(py "key", key); (py "presses", presses)].

Definition create_keyboard_hotkey (keys : pyval) : result Action :=
  create KEYBOARD_HOTKEY [(py "keys", keys)].

Definition create_delay (seconds : pyval) : result Action :=
  create DELAY [(py "seconds", seconds)].
End Factories.

End ActionModel.

(** ** The countdown scheduler ([src/core/scheduler.py]) *)
Module Scheduler.

(** A call of a subscriber's callback. *)
Inductive notification : Type :=
| Tick (remaining : Z)
| Warning (remaining : Z)
| Complete.

(** The scheduler object. A callback field is [true] when a callable
    is installed ([false] for [None]). Callbacks are observers: they
    return, or raise and are caught by the scheduler, and they do not
    call back into it; the calls made are what the model records.
    [_countdown_timer] is [true] while a one-second
    [threading.Timer] is armed and has neither fired nor been
    cancelled. *)
Record ShutdownScheduler : Type := mkScheduler {
  _countdown_timer : bool;
  _remaining_seconds : Z;
  _is_running : bool;
  _on_tick_callback : bool;
  _on_complete_callback : bool;
  _on_warning_callback : bool;
  _warning_seconds : Z
}.

(** [ShutdownScheduler()] *)
Definition init : ShutdownScheduler :=
  mkScheduler false 0 false false false false 30.

Definition set_on_tick (self : ShutdownScheduler) : ShutdownScheduler :=
  mkScheduler (_countdown_timer self) (_remaining_seconds self)
    (_is_running self) true (_on_complete_callback self)
    (_on_warning_callback self) (_warning_seconds self).

Definition set_on_complete (self : ShutdownScheduler) : ShutdownScheduler :=
  mkScheduler (_countdown_timer self) (_remaining_seconds self)
    (_is_running self) (_on_tick_callback self) true
    (_on_warning_callback self) (_warning_seconds self).

Definition set_on_warning (self : ShutdownScheduler) : ShutdownScheduler :=
  mkScheduler (_countdown_timer self) (_remaining_seconds self)
    (_is_running self) (_on_tick_callback self)
    (_on_complete_callback self) true (_warning_seconds self).

Definition set_warning_seconds (self : ShutdownScheduler) (seconds : Z)
    : ShutdownScheduler :=
  mkScheduler (_countdown_timer self) (_remaining_seconds self)
    (_is_running self) (_on_tick_callback self)
    (_on_complete_callback self) (_on_warning_callback self) seconds.

(** Updates of the three fields that the countdown writes. *)
Definition with_state (self : ShutdownScheduler) (timer : bool)
    (remaining : Z) (running : bool) : ShutdownScheduler :=
  mkScheduler timer remaining running (_on_tick_callback self)
    (_on_complete_callback self) (_on_warning_callback self)
    (_warning_seconds self).

Definition cancel (self : ShutdownScheduler) : ShutdownScheduler :=
  with_state self false 0 false.

Definition pause (self : ShutdownScheduler) : ShutdownScheduler :=
  with_state self false (_remaining_seconds self) false.

(** One run of [_start_countdown_tick]: the new state and the
    callbacks it called, in order. *)
Definition _start_countdown_tick (self : ShutdownScheduler)
    : ShutdownScheduler * list notification :=
  if negb (_is_running self) then (self, [])
  else if Z.leb (_remaining_seconds self) 0 then
    (with_state self (_countdown_timer self) (_remaining_seconds self) false,
     if _on_complete_callback self then [Complete] else [])
  else
    let remaining := _remaining_seconds self in
    let warning_seconds := _warning_seconds self in
    let self :=
      with_state self (_countdown_timer self) (remaining - 1)
        (_is_running self) in
    let ticked := if _on_tick_callback self then [Tick remaining] else [] in
    let warned :=
      if (Z.eqb remaining warning_seconds && _on_warning_callback self)%bool
      then [Warning remaining] else [] in
    let self :=
      if _is_running self
      then with_state self true (_remaining_seconds self) (_is_running self)
      else self in
    (self, ticked ++ warned).

Definition start (self : ShutdownScheduler) (seconds : Z)
    : ShutdownScheduler * list notification :=
  let self := if _is_running self then cancel self else self in
  let self := with_state self (_countdown_timer self) seconds true in
  _start_countdown_tick self.

Definition resume (self : ShutdownScheduler)
    : ShutdownScheduler * list notification :=
  if (Z.ltb 0 (_remaining_seconds self) && negb (_is_running self))%bool
  then
    _start_countdown_tick
      (with_state self (_countdown_timer self) (_remaining_seconds self)
         true)
  else (self, []).

(** The armed timer fires: it is spent, and its thread runs
    [_start_countdown_tick]. *)
Definition fire (self : ShutdownScheduler)
    : ShutdownScheduler * list notification :=
  _start_countdown_tick
    (with_state self false (_remaining_seconds self) (_is_running self)).

(** The timers fire one after the other until none is armed; the
    result lists what each firing delivered. [None]: the fuel ran out
    with a timer still armed. *)
Fixpoint run (fuel : nat) (self : ShutdownScheduler)
    : option (ShutdownScheduler * list (list notification)) :=
  if _countdown_timer self then
    match fuel with
    | O => None
    | S fuel' =>
        let (self', step) := fire self in
        match run fuel' self' with
        | Some (final, steps) => Some (final, step :: steps)
        | None => None
        end
    end
  else Some (self, []).

(** [start(seconds)] and the countdown left to run undisturbed: the
    final state and the notifications of each step, the first step
    being the one that [start] runs itself. *)
Definition countdown (fuel : nat) (self : ShutdownScheduler) (seconds : Z)
    : option (ShutdownScheduler * list (list notification)) :=
  let (self', step) := start self seconds in
  match run fuel self' with
  | Some (final, steps) => Some (final, step :: steps)
  | None => None
  end.

(** The values that the tick callback received. *)
Fixpoint ticks (trace : list notification) : list Z :=
  match trace with
  | [] => []
  | Tick v :: rest => v :: ticks rest
  | _ :: rest => ticks rest
  end.

Definition is_warning (n : notification) : bool :=
  match n with Warning _ => true | _ => false end.

Definition is_complete (n : notification) : bool :=
  match n with Complete => true | _ => false end.

Definition is_tick (n : notification) : bool :=
  match n with Tick _ => true | _ => false end.

(** [down_from v n] is [v, v-1, ...], [n] values. *)
Fixpoint down_from (v : Z) (n : nat) : list Z :=
  match n with
  | O => []
  | S n' => v :: down_from (v - 1) n'
  end.

(** The armed timer fires, [n] times at most: the state reached and
    what each firing delivered. *)
Fixpoint fire_times (n : nat) (self : ShutdownScheduler)
    : ShutdownScheduler * list (list notification) :=
  match n with
  | O => (self, [])
  | S n' =>
      if _countdown_timer self then
        let (self', step) := fire self in
        let (final, steps) := fire_times n' self' in
        (final, step :: steps)
      else (self, [])
  end.

(** The format field [{v:02d}]: the decimal digits, with a leading
    zero for a single digit (a minus sign fills the width as well). *)
Definition two_digits (v : Z) : Py.pystr :=
  if (Z.leb 0 v && Z.ltb v 10)%bool
  then Py.py "0" ++ Py.py (pretty v)
  else Py.py (pretty v).

(** [format_time]; [//] and [%] round towards minus infinity, as
    [Z.div] and [Z.modulo] do. *)
Definition format_time (seconds : Z) : Py.pystr :=
  let hours := seconds / 3600 in
  let minutes := (seconds mod 3600) / 60 in
  let secs := seconds mod 60 in
  two_digits hours ++ Py.py ":" ++ two_digits minutes ++ Py.py ":"
  ++ two_digits secs.

Definition calculate_seconds (hours minutes seconds : Z) : Z :=
  hours * 3600 + minutes * 60 + seconds.

End Scheduler.

(** ** The action executor ([src/automation/executor.py]) *)
Module Executor.
Import Py ActionModel.

(** What the executor asks of the outside: the mouse controller and
    the key-press methods of the keyboard controller (thin layers
    over pyautogui), and the library calls behind the two
    text-delivery methods. *)
Inductive call : Type :=
| MouseClick (x y button : pyval)
| MouseDoubleClick (x y : pyval)
| MouseRightClick (x y : pyval)
| MouseMoveTo (x y duration : pyval)
| MouseDragTo (x y duration : pyval)
| MouseScroll (clicks x y : pyval)
| KeyboardPressKey (key presses : pyval)
| KeyboardHotkey (keys : list pyval)
| Typewrite (text interval : pyval)
| PasteKeystroke
| Sleep (seconds : pyval)
| ClipboardPaste
| ClipboardCopy (text : pyval).

(** A callback of the executor being called. *)
Inductive notification : Type :=
| ActionStart (action : Action) (index : nat)
| ActionComplete (action : Action) (index : nat)
| ActionError (e : exn) (action : Action)
| SequenceComplete.

Inductive event : Type :=
| Called (c : call)
| Notified (n : notification).

(** The outside: the text on the clipboard and everything that has
    happened so far, oldest first. *)
Record World : Type := mkWorld {
  clipboard : pystr;
  log : list event
}.

Definition record (e : event) (w : World) : World :=
  {| clipboard := clipboard w; log := log w ++ [e] |}.

(** A computation on the world that returns or raises. *)
Definition M (A : Type) : Type := World -> result A * World.

Definition ret {A} (a : A) : M A := fun w => (Ok a, w).

Definition seq {A B} (m : M A) (k : A -> M B) : M B :=
  fun w =>
    match m w with
    | (Ok a, w') => k a w'
    | (Raise e, w') => (Raise e, w')
    end.

Definition lift {A} (r : result A) : M A := fun w => (r, w).

(** [try: body finally: cleanup] *)
Definition try_finally {A} (body : M A) (cleanup : M unit) : M A :=
  fun w =>
    let (r, w1) := body w in
    match cleanup w1 with
    | (Ok _, w2) => (r, w2)
    | (Raise e, w2) => (Raise e, w2)
    end.

Notation "'do' x '<-' m ';' k" := (seq m (fun x => k))
  (at level 10, x name, m at level 100, k at level 200).
Notation "m ';;' k" := (seq m (fun _ => k))
  (at level 100, right associativity).

(** [for x in l: body x] *)
Fixpoint for_each {A} (l : list A) (body : A -> M unit) : M unit :=
  match l with
  | [] => ret tt
  | x :: l' => body x ;; for_each l' body
  end.

(** [any(ord(c) > 127 for c in text)] over the elements of [text]:
    [ord] takes a string of length one, and [any] stops at the first
    hit. *)
Fixpoint any_above_127 (elements : list pyval) : result bool :=
  match elements with
  | [] => Ok false
  | PStr [c] :: rest => if N.ltb 127 c then Ok true else any_above_127 rest
  | _ :: _ => Raise TypeError
  end.

(** The executor object; a callback field is [true] when a callable
    is installed. Callbacks are observers that return. *)
Record ActionExecutor : Type := mkExecutor {
  _is_running : bool;
  _on_action_start : bool;
  _on_action_complete : bool;
  _on_sequence_complete : bool;
  _on_error : bool
}.

(** [ActionExecutor()] *)
Definition init : ActionExecutor := mkExecutor false false false false false.

Definition set_running (self : ActionExecutor) (b : bool) : ActionExecutor :=
  mkExecutor b (_on_action_start self) (_on_action_complete self)
    (_on_sequence_complete self) (_on_error self).

Definition stop (self : ActionExecutor) : ActionExecutor :=
  set_running self false.

(** Call the callback when one is installed. *)
Definition notify (installed : bool) (n : notification) (w : World) : World :=
  if installed then record (Notified n) w else w.

Section Outside.
(** [str()] of the values whose rendering is not modelled. *)
Variable repr_other : pyval -> pystr.
(** The input driver: whether a call raises, given what happened
    before it. *)
Variable driver_raises : list event -> call -> bool.

(** A call that the driver may fail. *)
Definition external (c : call) : M unit :=
  fun w =>
    (if driver_raises (log w) c then Raise DriverError else Ok tt,
     record (Called c) w).

(** [pyperclip.paste()]: the text on the clipboard. *)
Definition pyperclip_paste : M pyval :=
  fun w => (Ok (PStr (clipboard w)), record (Called ClipboardPaste) w).

(** [pyperclip.copy(v)]: text is put on the clipboard, a number or
    a boolean as [str] renders it, and any other value is
    refused. *)
Definition pyperclip_copy (v : pyval) : M unit :=
  fun w =>
    let logged := log w ++ [Called (ClipboardCopy v)] in
    match v with
    | PStr _ | PBool _ | PInt _ | PFloat _ =>
        (Ok tt, {| clipboard := Py.str repr_other v; log := logged |})
    | _ => (Raise DriverError, {| clipboard := clipboard w; log := logged |})
    end.

(** [KeyboardController.type_text] *)
Definition type_text (text interval : pyval) : M unit :=
  external (Typewrite text interval).

(** The [try] block of [type_unicode]. *)
Definition paste_text (text interval : pyval) : M unit :=
  do paced <- lift (gt_zero interval);
  if paced then
    do chars <- lift (iterate text);
    for_each chars (fun char =>
      pyperclip_copy char ;;
      external PasteKeystroke ;;
      external (Sleep interval))
  else
    pyperclip_copy text ;;
    external PasteKeystroke.

(** [KeyboardController.type_unicode] *)
Definition type_unicode (text interval : pyval) : M unit :=
  do original_clipboard <- pyperclip_paste;
  try_finally (paste_text text interval)
    (pyperclip_copy original_clipboard).

Definition float_0_25 : pyval := PFloat (S754_finite false 1 (-2)).
Definition float_0_5 : pyval := PFloat (S754_finite false 1 (-1)).
Definition float_0_0 : pyval := PFloat (S754_zero false).

(** The [try] block of [execute_action]. *)
Definition dispatch (action : Action) : M unit :=
  let params := params action in
  match action_type action with
  | MOUSE_CLICK =>
      do x <- lift (get params (py "x") PNone);
      do y <- lift (get params (py "y") PNone);
      do button <- lift (get params (py "button") (PStr (py "left")));
      external (MouseClick x y button)
  | MOUSE_DOUBLE_CLICK =>
      do x <- lift (get params (py "x") PNone);
      do y <- lift (get params (py "y") PNone);
      external (MouseDoubleClick x y)
  | MOUSE_RIGHT_CLICK =>
      do x <- lift (get params (py "x") PNone);
      do y <- lift (get params (py "y") PNone);
      external (MouseRightClick x y)
  | MOUSE_MOVE =>
      do x <- lift (get params (py "x") (PInt 0));
      do y <- lift (get params (py "y") (PInt 0));
      do duration <- lift (get params (py "duration") float_0_25);
      external (MouseMoveTo x y duration)
  | MOUSE_DRAG =>
      do x <- lift (get params (py "x") (PInt 0));
      do y <- lift (get params (py "y") (PInt 0));
      do duration <- lift (get params (py "duration") float_0_5);
      external (MouseDragTo x y duration)
  | MOUSE_SCROLL =>
      do clicks <- lift (get params (py "amount") (PInt 0));
      do x <- lift (get params (py "x") PNone);
      do y <- lift (get params (py "y") PNone);
      external (MouseScroll clicks x y)
  | KEYBOARD_TYPE =>
      do text <- lift (get params (py "text") (PStr []));
      do interval <- lift (get params (py "interval") float_0_0);
      do elements <- lift (iterate text);
      do non_ascii <- lift (any_above_127 elements);
      if non_ascii then type_unicode text interval
      else type_text text interval
  | KEYBOARD_PRESS =>
      do key <- lift (get params (py "key") (PStr []));
      do presses <- lift (get params (py "presses") (PInt 1));
      external (KeyboardPressKey key presses)
  | KEYBOARD_HOTKEY =>
      do keys <- lift (get params (py "keys") (PList []));
      do unpacked <- lift (iterate keys);
      external (KeyboardHotkey unpacked)
  | DELAY =>
      do seconds <- lift (get params (py "seconds") (PInt 0));
      external (Sleep seconds)
  end.

(** [execute_action]: [except Exception] catches whatever
    [dispatch] raises, so the call always returns. *)
Definition execute_action (self : ActionExecutor) (action : Action)
    (w : World) : bool * World :=
  if negb (truthy (enabled action)) then (true, w)
  else
    match dispatch action w with
    | (Ok _, w') => (true, w')
    | (Raise e, w') =>
        (false, notify (_on_error self) (ActionError e action) w')
    end.

(** The [for] loop of [execute_sequence], from [index] on.
    [stop_during i] tells whether [stop()] is called, by another
    thread or by a callback, while the step of index [i] is under
    way: after that step's test of [_is_running] and before the
    next test. The flag is only written in between, so the call is
    placed at the end of the step. (A call that comes before the
    first test is not part of the schedule.) *)
Fixpoint loop (stop_during : nat -> bool) (index : nat)
    (actions : list Action) (self : ActionExecutor) (success : bool)
    (w : World) : bool * ActionExecutor * World :=
  match actions with
  | [] => (success, self, w)
  | action :: rest =>
      if negb (_is_running self) then (false, self, w)
      else
        let w := notify (_on_action_start self) (ActionStart action index) w in
        let (result, w) := execute_action self action w in
        let w :=
          notify (_on_action_complete self) (ActionComplete action index) w in
        let success := if negb result then false else success in
        let self := if stop_during index then stop self else self in
        loop stop_during (S index) rest self success w
  end.

Definition execute_sequence (stop_during : nat -> bool)
    (self : ActionExecutor) (sequence : ActionSequence) (w : World)
    : bool * ActionExecutor * World :=
  let self := set_running self true in
  let '(success, self, w) :=
    loop stop_during 0 (actions sequence) self true w in
  let self := set_running self false in
  let w := notify (_on_sequence_complete self) SequenceComplete w in
  (success, self, w).
End Outside.

End Executor.

(** ** The power commands ([src/core/shutdown.py]) *)
Module Shutdown.
Import Py.

Section Os.
(** [str()] of the values whose rendering is not modelled. *)
Variable repr_other : pyval -> pystr.
(** Whether [subprocess.STARTUPINFO] exists: it does on Windows only,
    and building it raises elsewhere. *)
Variable windows : bool.
(** [subprocess.run(cmd, startupinfo=..., check=True)]: whether it
    raises (the command cannot be run, or exits with a status other
    than 0). *)
Variable run_raises : list pyval -> bool.

(** The rest of each method once the command is built: the window is
    hidden, the command run, and every exception answered with
    [False]. The result comes with the commands that were run. *)
Definition run_hidden (cmd : list pyval) : bool * list (list pyval) :=
  if negb windows then (false, [])
  else if run_raises cmd then (false, [cmd])
  else (true, [cmd]).

Definition shutdown (delay force message : pyval)
    : bool * list (list pyval) :=
  let cmd :=
    [PStr (py "shutdown"); PStr (py "/s"); PStr (py "/t");
     PStr (Py.str repr_other delay)] in
  let cmd := if truthy force then cmd ++ [PStr (py "/f")] else cmd in
  let cmd := if truthy message then cmd ++ [PStr (py "/c"); message] else cmd in
  run_hidden cmd.

Definition restart (delay force message : pyval)
    : bool * list (list pyval) :=
  let cmd :=
    [PStr (py "shutdown"); PStr (py "/r"); PStr (py "/t");
     PStr (Py.str repr_other delay)] in
  let cmd := if truthy force then cmd ++ [PStr (py "/f")] else cmd in
  let cmd := if truthy message then cmd ++ [PStr (py "/c"); message] else cmd in
  run_hidden cmd.

Definition cancel_shutdown : bool * list (list pyval) :=
  run_hidden [PStr (py "shutdown"); PStr (py "/a")].

Definition sleep : bool * list (list pyval) :=
  run_hidden
    [PStr (py "rundll32.exe"); PStr (py "powrprof.dll,SetSuspendState");
     PStr (py "0"); PStr (py "1"); PStr (py "0")].

Definition hibernate : bool * list (list pyval) :=
  run_hidden [PStr (py "shutdown"); PStr (py "/h")].

Definition logoff : bool * list (list pyval) :=
  run_hidden [PStr (py "shutdown"); PStr (py "/l")].
End Os.

End Shutdown.

(** ** Notions used to state the properties *)
Module Notions.
Import Py ActionModel.

(** No two actions of the sequence share an [id]. *)
Definition unique_ids (self : ActionSequence) : Prop :=
  NoDup (map id (actions self)).

(** The identifier an entry of a serialized sequence ends up with:
    its ['id'], or the identifier drawn for it. *)
Definition entry_id (uuid : pystr) (entry : pyval) : pyval :=
  match entry with
  | PDict d =>
      match lookup d (py "id") with
      | Some v => v
      | None => PStr uuid
      end
  | _ => PNone
  end.

Fixpoint entry_ids (uuid : nat -> pystr) (i : nat) (entries : list pyval)
    : list pyval :=
  match entries with
  | [] => []
  | entry :: rest => entry_id (uuid i) entry :: entry_ids uuid (S i) rest
  end.

(** The entries that loading walks through: what iterating
    [data.get('actions', [])] yields. *)
Definition entries_of (d : list (pystr * pyval)) : result (list pyval) :=
  iterate (match lookup d (py "actions") with
           | Some v => v
           | None => PList []
           end).








(** What one step of the countdown delivers while [v] seconds remain,
    and what the last step delivers. *)
Definition tick_step (self : Scheduler.ShutdownScheduler) (v : Z)
    : list Scheduler.notification :=
  (if Scheduler._on_tick_callback self then [Scheduler.Tick v] else [])
  ++ (if (Z.eqb v (Scheduler._warning_seconds self)
          && Scheduler._on_warning_callback self)%bool
      then [Scheduler.Warning v] else []).

Definition complete_step (self : Scheduler.ShutdownScheduler)
    : list Scheduler.notification :=
  if Scheduler._on_complete_callback self then [Scheduler.Complete] else [].

Definition no_warning (step : list Scheduler.notification) : Prop :=
  Forall (fun n => Scheduler.is_warning n = false) step.

(** A scheduler with the three callbacks installed. *)
Definition subscribed : Scheduler.ShutdownScheduler :=
  Scheduler.set_on_warning
    (Scheduler.set_on_complete (Scheduler.set_on_tick Scheduler.init)).

(** The run of [execute_sequence] as it stands when the step of index
    [i] is reached: the result so far, the executor and the world
    after the steps before [i]. *)
Definition state_before (repr_other : pyval -> pystr)
    (driver_raises : list Executor.event -> Executor.call -> bool)
    (stop_during : nat -> bool) (self : Executor.ActionExecutor)
    (sequence : ActionSequence) (w : Executor.World) (i : nat)
    : bool * Executor.ActionExecutor * Executor.World :=
  Executor.loop repr_other driver_raises stop_during 0
    (take i (actions sequence)) (Executor.set_running self true) true w.

(** The first call of [stop()] comes during the step of index [k]. *)
Definition first_stop (stop_during : nat -> bool) (k : nat) : Prop :=
  stop_during k = true /\ forall j, (j < k)%nat -> stop_during j = false.

(** What has been logged since [w]. *)
Definition since (w w' : Executor.World) : list Executor.event :=
  drop (length (Executor.log w)) (Executor.log w').

(** The computation only adds to the log, and what it adds
    satisfies [P]. *)
Definition adds {A} (P : Executor.event -> Prop) (m : Executor.M A) : Prop :=
  forall w,
    exists delta,
      Executor.log (snd (m w)) = Executor.log w ++ delta /\ Forall P delta.

(** An event that is an external call. *)
Definition is_call (e : Executor.event) : Prop :=
  match e with
  | Executor.Called _ => True
  | Executor.Notified _ => False
  end.

(** An external call of the clipboard path of text delivery. *)
Definition clipboard_path (e : Executor.event) : Prop :=
  match e with
  | Executor.Called (Executor.ClipboardCopy _)
  | Executor.Called Executor.PasteKeystroke
  | Executor.Called (Executor.Sleep _) => True
  | _ => False
  end.

(** The interval a [TypeText] action gives, [0.0] when it gives
    none. *)
Definition interval_of (d : list (pystr * pyval)) : pyval :=
  match lookup d (py "interval") with
  | Some v => v
  | None => Executor.float_0_0
  end.

(** The calls that the clipboard delivery of [text] sets out to make
    between reading the clipboard and writing it back: the whole
    text copied and pasted once, or, when paced, each character
    copied and pasted, with a sleep after it. *)
Definition planned (paced : bool) (text : pystr) (interval : pyval)
    : list Executor.call :=
  if paced then
    flat_map
      (fun c =>
         [Executor.ClipboardCopy (PStr [c]); Executor.PasteKeystroke;
          Executor.Sleep interval])
      text
  else [Executor.ClipboardCopy (PStr text); Executor.PasteKeystroke].

(** Whether a planned call fails: copying text does not, any other
    call when the driver raises. *)
Definition refused
    (driver_raises : list Executor.event -> Executor.call -> bool)
    (before : list Executor.event) (c : Executor.call) : bool :=
  match c with
  | Executor.ClipboardCopy _ => false
  | _ => driver_raises before c
  end.

(** The calls of a plan that are made, in order, up to and including
    the first one that fails, and whether one failed. [before] is
    what happened before the plan was begun. *)
Fixpoint attempted
    (driver_raises : list Executor.event -> Executor.call -> bool)
    (before : list Executor.event) (calls : list Executor.call)
    : list Executor.event * bool :=
  match calls with
  | [] => ([], false)
  | c :: rest =>
      if refused driver_raises before c then ([Executor.Called c], true)
      else
        let (made, failed) :=
          attempted driver_raises (before ++ [Executor.Called c]) rest in
        (Executor.Called c :: made, failed)
  end.

(** An event that can occur within a step whose index is in
    [[lo, hi)]: no start or completion of another index, and no end
    of the sequence. *)
Definition within (lo hi : nat) (e : Executor.event) : Prop :=
  match e with
  | Executor.Notified (Executor.ActionStart _ j)
  | Executor.Notified (Executor.ActionComplete _ j) => (lo <= j < hi)%nat
  | Executor.Notified Executor.SequenceComplete => False
  | _ => True
  end.

Definition is_sequence_complete (e : Executor.event) : bool :=
  match e with
  | Executor.Notified Executor.SequenceComplete => true
  | _ => false
  end.

(** An executor with the four callbacks installed. *)
Definition listening : Executor.ActionExecutor :=
  Executor.mkExecutor false true true true true.

(** Drivers: one that never fails, one that fails every paste
    keystroke. *)
Definition never_raises : list Executor.event -> Executor.call -> bool :=
  fun _ _ => false.

Definition paste_raises : list Executor.event -> Executor.call -> bool :=
  fun _ c =>
    match c with
    | Executor.PasteKeystroke => true
    | _ => false
    end.

Definition kept_world : Executor.World :=
  Executor.mkWorld (py "kept") [].

(** A [TypeText] action for [héllo]. *)
Definition type_hello : Action :=
  mkAction KEYBOARD_TYPE
    (PDict [(py "text", PStr [104; 233; 108; 108; 111]%N);
            (py "interval", PFloat (S754_zero false))])
    (PStr (py "greet")) (PStr (py "t1")) (PBool true).

Definition disabled (a : Action) : Action :=
  mkAction (action_type a) (params a) (description a) (id a) (PBool false).

(** Schedules of [stop()]: never called, called during the first
    step, called during every step. *)
Definition never_stopped : nat -> bool := fun _ => false.
Definition stopped_at_first : nat -> bool := fun j => Nat.eqb j 0.
Definition always_stopped : nat -> bool := fun _ => true.

(** Sample values. *)
Definition no_repr : pyval -> pystr := fun _ => [].
Definition no_uuid : nat -> pystr := fun _ => [].

Definition press_a (description : pyval) (id : pystr) : Action :=
  mkAction KEYBOARD_PRESS (PDict [(py "key", PStr (py "a"))]) description
    (PStr id) (PBool true).

(** [按键: a], the description generated for [press_a]. *)
Definition press_a_text : pyval := PStr [25353; 38190; 58; 32; 97]%N.

Definition demo_sequence (l : list Action) : ActionSequence :=
  mkActionSequence (PStr (py "demo")) l.

(** Sample runs: pressing [a] under the identifier [i]; the calls
    and notifications of such a step of index [n]. *)
Definition press (i : string) : Action := press_a press_a_text (py i).

Definition press_call : Executor.event :=
  Executor.Called (Executor.KeyboardPressKey (PStr (py "a")) (PInt 1)).

Definition started (a : Action) (n : nat) : Executor.event :=
  Executor.Notified (Executor.ActionStart a n).

Definition completed (a : Action) (n : nat) : Executor.event :=
  Executor.Notified (Executor.ActionComplete a n).

Definition three_steps : ActionSequence :=
  demo_sequence [press "a1"; disabled (press "a2"); press "a3"].

Definition three_enabled : ActionSequence :=
  demo_sequence [press "a1"; press "a2"; press "a3"].

Definition one_step : ActionSequence := demo_sequence [press "a1"].

Definition hello_then_press : ActionSequence :=
  demo_sequence [type_hello; press "a2"].

(** The world after [type_hello], as the first step of a run, has
    failed on its paste keystroke. *)
Definition hello_failed : Executor.World :=
  Executor.mkWorld (py "kept")
    [started type_hello 0;
     Executor.Called Executor.ClipboardPaste;
     Executor.Called
       (Executor.ClipboardCopy (PStr [104; 233; 108; 108; 111]%N));
     Executor.Called Executor.PasteKeystroke;
     Executor.Called (Executor.ClipboardCopy (PStr (py "kept")));
     Executor.Notified (Executor.ActionError DriverError type_hello)].


(** The start or the completion of an action. *)
Definition is_milestone (e : Executor.event) : bool :=
  match e with
  | Executor.Notified (Executor.ActionStart _ _)
  | Executor.Notified (Executor.ActionComplete _ _) => true
  | _ => false
  end.

Definition is_error (e : Executor.event) : bool :=
  match e with
  | Executor.Notified (Executor.ActionError _ _) => true
  | _ => false
  end.

Definition is_external (e : Executor.event) : bool :=
  match e with
  | Executor.Called _ => true
  | Executor.Notified _ => false
  end.

(** Start and completion of each action in turn, from [index] on. *)
Fixpoint in_turn (index : nat) (l : list Action) : list Executor.event :=
  match l with
  | [] => []
  | a :: rest => started a index :: completed a index :: in_turn (S index) rest
  end.

(** [start(seconds)] and the countdown left alone until its timer has
    fired [n] times: the state reached and what each step delivered. *)
Definition interrupted (self : Scheduler.ShutdownScheduler) (seconds : Z)
    (n : nat)
    : Scheduler.ShutdownScheduler * list (list Scheduler.notification) :=
  let (started, first) := Scheduler.start self seconds in
  let (reached, steps) := Scheduler.fire_times n started in
  (reached, first :: steps).

(** [pause()], later [resume()], and the countdown left alone from
    there on. *)
Definition resumed (fuel : nat) (self : Scheduler.ShutdownScheduler)
    : option (Scheduler.ShutdownScheduler * list (list Scheduler.notification)) :=
  let (going, first) := Scheduler.resume (Scheduler.pause self) in
  match Scheduler.run fuel going with
  | Some (final, steps) => Some (final, first :: steps)
  | None => None
  end.

End Notions.

(** ** Properties of the action model *)
Module ActionModelFacts.
Import Py ActionModel Notions.

Lemma pystr_eqb_eq (s t : pystr) : pystr_eqb s t = true <-> s = t.
Proof.
  revert t. induction s as [|c s IH]; intros [|d t]; simpl; try easy.
  rewrite andb_true_iff, N.eqb_eq, IH. split.
  - intros [-> ->]. reflexivity.
  - intros [= -> ->]. auto.
Qed.

Lemma pystr_eqb_refl (s : pystr) : pystr_eqb s s = true.
Proof. apply pystr_eqb_eq. reflexivity. Qed.

Lemma eq_str_true (v : pyval) (s : pystr) : eq_str v s = true <-> v = PStr s.
Proof.
  destruct v; simpl; try (split; [discriminate | intros [=]]).
  rewrite pystr_eqb_eq. split; [intros -> | intros [=]]; congruence.
Qed.

Lemma eq_str_false (v : pyval) (s : pystr) : eq_str v s = false <-> v <> PStr s.
Proof.
  rewrite <- eq_str_true. destruct (eq_str v s); split; congruence.
Qed.

(** *** Removal *)

Lemma filter_sublist {A} (f : A -> bool) (l : list A) :
  List.filter f l `sublist_of` l.
Proof.
  induction l as [|a l IH]; simpl.
  - constructor.
  - destruct (f a); constructor; exact IH.
Qed.

Lemma filter_split_length {A} (f : A -> bool) (l : list A) :
  length l = (length (List.filter (fun a => negb (f a)) l)
              + length (List.filter f l))%nat.
Proof.
  induction l as [|a l IH]; simpl; [reflexivity|].
  destruct (f a); simpl; lia.
Qed.

Lemma filter_all {A} (f : A -> bool) (l : list A) :
  Forall (fun a => f a = true) l -> List.filter f l = l.
Proof.
  induction 1 as [|a l Ha _ IH]; simpl; [reflexivity|].
  rewrite Ha, IH. reflexivity.
Qed.

(** C10. [remove_action] keeps the name, leaves no action whose id is
    the given string, keeps a sub-sequence of the actions in their
    order, drops exactly the actions with that id (all of them, as
    the lengths show), and changes nothing when no action has it. *)
Theorem remove_action_removes_exactly
    (self : ActionSequence) (action_id : pystr) :
  let removed := remove_action self action_id in
  name removed = name self
  /\ Forall (fun a => id a <> PStr action_id) (actions removed)
  /\ actions removed `sublist_of` actions self
  /\ length (actions self)
     = (length (actions removed)
        + length (List.filter (fun a => eq_str (id a) action_id)
                    (actions self)))%nat
  /\ (Forall (fun a => id a <> PStr action_id) (actions self)
      -> removed = self).
Proof.
  destruct self as [nm l]. simpl. repeat split.
  - apply Forall_forall. intros a Ha.
    apply list_elem_of_In, filter_In in Ha. destruct Ha as [_ Ha].
    apply negb_true_iff, eq_str_false in Ha. exact Ha.
  - apply filter_sublist.
  - apply (filter_split_length (fun a => eq_str (id a) action_id)).
  - intros Hall. unfold remove_action. simpl. f_equal.
    apply filter_all. eapply Forall_impl; [exact Hall|].
    intros a Ha. simpl. apply negb_true_iff, eq_str_false. exact Ha.
Qed.

(** *** Identifiers *)

Lemma map_sublist {A B} (f : A -> B) (l k : list A) :
  l `sublist_of` k -> map f l `sublist_of` map f k.
Proof. induction 1; simpl; constructor; assumption. Qed.

Lemma insert_at_Permutation {A} (i : nat) (x : A) (l : list A) :
  list_insert_at i x l ≡ₚ x :: l.
Proof.
  unfold list_insert_at. rewrite <- Permutation_middle.
  rewrite take_drop. reflexivity.
Qed.

Lemma move_action_Permutation (self : ActionSequence)
    (from_index to_index : Z) :
  actions (move_action self from_index to_index) ≡ₚ actions self.
Proof.
  unfold move_action.
  destruct (_ && _)%bool; [|reflexivity].
  destruct (actions self !! Z.to_nat from_index) as [a|] eqn:Hget;
    [|reflexivity].
  simpl. rewrite insert_at_Permutation.
  symmetry. apply delete_Permutation. exact Hget.
Qed.

Lemma remove_action_unique (self : ActionSequence) (action_id : pystr) :
  unique_ids self -> unique_ids (remove_action self action_id).
Proof.
  unfold unique_ids. simpl. intros H.
  eapply sublist_NoDup; [exact H|].
  apply map_sublist, filter_sublist.
Qed.

Lemma move_action_unique (self : ActionSequence) (from_index to_index : Z) :
  unique_ids self -> unique_ids (move_action self from_index to_index).
Proof.
  unfold unique_ids. intros H.
  assert (Hp : map id (actions (move_action self from_index to_index))
               ≡ₚ map id (actions self))
    by apply Permutation_map, move_action_Permutation.
  rewrite Hp. exact H.
Qed.

Lemma add_action_unique (self : ActionSequence) (action : Action) :
  unique_ids self ->
  unique_ids (add_action self action) <-> id action ∉ map id (actions self).
Proof.
  unfold unique_ids. simpl. intros H. rewrite map_app. simpl.
  rewrite NoDup_app. split.
  - intros (_ & Hnot & _) Hin. apply (Hnot _ Hin). left.
  - intros Hnot. repeat split; [exact H| |apply NoDup_singleton].
    intros x Hx Hx'. apply list_elem_of_singleton in Hx'. subst x. auto.
Qed.

(** What [Action.from_dict] returns, when it returns. *)
Lemma Action_from_dict_Ok repr_other uuid data a :
  Action_from_dict repr_other uuid data = Ok a ->
  exists d,
    data = PDict d
    /\ id a = entry_id uuid data
    /\ lookup d (py "action_type") = Some (PStr (value (action_type a)))
    /\ params a = match lookup d (py "params") with
                  | Some v => v
                  | None => PDict []
                  end
    /\ enabled a = match lookup d (py "enabled") with
                   | Some v => v
                   | None => PBool true
                   end.
Proof.
  unfold Action_from_dict. destruct data as [| | | | | |d]; try discriminate.
  intros H. exists d. simpl in H.
  destruct (lookup d (py "action_type")) as [v|] eqn:Hk; [|discriminate].
  simpl in H. unfold ActionType_call in H.
  destruct (find _ members) as [t|] eqn:Hfind; [|discriminate].
  apply find_some in Hfind. destruct Hfind as [_ Hv].
  apply eq_str_true in Hv. subst v. simpl in H.
  unfold Action_new in H.
  destruct (truthy _).
  - injection H as <-. simpl. auto.
  - destruct (_generate_description _ _) as [g|e]; [|discriminate].
    simpl in H. injection H as <-. simpl. auto.
Qed.

Lemma load_actions_ids repr_other uuid entries :
  forall i sequence loaded,
    load_actions repr_other uuid i entries sequence = Ok loaded ->
    map id (actions loaded)
    = map id (actions sequence) ++ entry_ids uuid i entries.
Proof.
  induction entries as [|e entries IH]; intros i sequence loaded H; simpl in *.
  - injection H as <-. rewrite app_nil_r. reflexivity.
  - destruct (Action_from_dict repr_other (uuid i) e) as [a|x] eqn:Ha;
      [|discriminate].
    simpl in H. apply IH in H. rewrite H. simpl. rewrite map_app. simpl.
    apply Action_from_dict_Ok in Ha. destruct Ha as (d & -> & Hid & _).
    rewrite Hid, <- app_assoc. reflexivity.
Qed.

(** What [ActionSequence.from_dict] needs in order to return. *)
Lemma ActionSequence_from_dict_Ok repr_other uuid data loaded :
  ActionSequence_from_dict repr_other uuid data = Ok loaded ->
  exists d entries,
    data = PDict d
    /\ entries_of d = Ok entries
    /\ load_actions repr_other uuid 0 entries
         (mkActionSequence
            (match lookup d (py "name") with
             | Some v => v
             | None => default_name
             end) [])
       = Ok loaded.
Proof.
  unfold ActionSequence_from_dict.
  destruct data as [| | | | | |d]; try discriminate.
  simpl. intros H. exists d. unfold entries_of.
  destruct (iterate _) as [entries|e]; [|discriminate].
  exists entries. auto.
Qed.

Lemma from_dict_ids repr_other uuid data loaded :
  ActionSequence_from_dict repr_other uuid data = Ok loaded ->
  exists d entries,
    data = PDict d /\ entries_of d = Ok entries
    /\ map id (actions loaded) = entry_ids uuid 0 entries.
Proof.
  intros H. apply ActionSequence_from_dict_Ok in H.
  destruct H as (d & entries & -> & He & H).
  exists d, entries. repeat split; [exact He|].
  apply load_actions_ids in H. exact H.
Qed.

(** C3, as the code has it. Removal and reordering keep the
    identifiers distinct for every input. Appending keeps them
    distinct exactly when the appended action's id is not yet in the
    sequence, and a loaded sequence carries the identifiers of its
    entries as they stand, so it has distinct identifiers exactly
    when its entries do: neither operation checks. *)
Theorem unique_ids_preservation :
  (forall self action_id,
      unique_ids self -> unique_ids (remove_action self action_id))
  /\ (forall self from_index to_index,
         unique_ids self -> unique_ids (move_action self from_index to_index))
  /\ (forall self action,
         unique_ids self ->
         unique_ids (add_action self action)
         <-> id action ∉ map id (actions self))
  /\ (forall repr_other uuid data loaded,
         ActionSequence_from_dict repr_other uuid data = Ok loaded ->
         exists d entries,
           data = PDict d /\ entries_of d = Ok entries
           /\ map id (actions loaded) = entry_ids uuid 0 entries
           /\ (unique_ids loaded <-> NoDup (entry_ids uuid 0 entries))).
Proof.
  split; [exact remove_action_unique|].
  split; [exact move_action_unique|].
  split; [exact add_action_unique|].
  intros repr_other uuid data loaded H.
  apply from_dict_ids in H. destruct H as (d & entries & -> & He & Hids).
  exists d, entries. repeat split; auto; unfold unique_ids; congruence.
Qed.

(** C3 fails as stated: appending an action whose id is already in
    the sequence, and loading two entries that carry the same id,
    both leave two actions sharing an id. *)
Lemma unique_ids_counterexample :
  unique_ids (demo_sequence [press_a press_a_text (py "a1")])
  /\ map id (actions (add_action
                        (demo_sequence [press_a press_a_text (py "a1")])
                        (press_a press_a_text (py "a1"))))
     = [PStr (py "a1"); PStr (py "a1")]
  /\ ActionSequence_from_dict no_repr no_uuid
       (ActionSequence_to_dict
          (demo_sequence [press_a press_a_text (py "a1");
                          press_a press_a_text (py "a1")]))
     = Ok (demo_sequence [press_a press_a_text (py "a1");
                          press_a press_a_text (py "a1")])
  /\ ~ unique_ids (demo_sequence [press_a press_a_text (py "a1");
                                  press_a press_a_text (py "a1")]).
Proof.
  split; [|split; [|split]].
  - unfold unique_ids. simpl. apply NoDup_singleton.
  - reflexivity.
  - vm_compute. reflexivity.
  - unfold unique_ids. simpl. intros H.
    apply NoDup_cons in H. destruct H as [H _]. apply H. left.
Qed.

(** *** Saving and loading *)

Lemma ActionType_call_value (t : ActionType) :
  ActionType_call (PStr (value t)) = Ok t.
Proof. destruct t; reflexivity. Qed.

Lemma Action_round_trip repr_other uuid (a : Action) :
  truthy (description a) = true ->
  Action_from_dict repr_other uuid (Action_to_dict a) = Ok a.
Proof.
  intros Hd. destruct a as [t p d i e]. simpl in Hd.
  unfold Action_from_dict, Action_to_dict. simpl.
  rewrite ActionType_call_value. simpl.
  unfold Action_new. rewrite Hd. reflexivity.
Qed.

Lemma load_actions_round_trip repr_other uuid (l : list Action) :
  Forall (fun a => truthy (description a) = true) l ->
  forall i nm done,
    load_actions repr_other uuid i (map Action_to_dict l)
      (mkActionSequence nm done)
    = Ok (mkActionSequence nm (done ++ l)).
Proof.
  induction 1 as [|a l Ha _ IH]; intros i nm done; simpl.
  - rewrite app_nil_r. reflexivity.
  - rewrite (Action_round_trip _ _ _ Ha). simpl.
    unfold add_action. simpl. rewrite IH, <- app_assoc. reflexivity.
Qed.

(** C5, as the code has it. A sequence whose actions all have a
    description that counts as true (one that is not empty: the state
    in which the constructor leaves every action) is loaded back from
    its saved form as the very same sequence: same name, same actions
    in the same order, each with the same id, kind, parameters,
    description and enabled flag. *)
Theorem round_trip repr_other uuid (s : ActionSequence) :
  Forall (fun a => truthy (description a) = true) (actions s) ->
  ActionSequence_from_dict repr_other uuid (ActionSequence_to_dict s) = Ok s.
Proof.
  intros H. destruct s as [nm l].
  unfold ActionSequence_from_dict, ActionSequence_to_dict. simpl.
  apply (load_actions_round_trip repr_other uuid l H 0%nat nm []).
Qed.

Lemma round_trip_witness :
  ActionSequence_from_dict no_repr no_uuid
    (ActionSequence_to_dict
       (demo_sequence [press_a press_a_text (py "a1");
                       press_a (PStr (py "again")) (py "a2")]))
  = Ok (demo_sequence [press_a press_a_text (py "a1");
                       press_a (PStr (py "again")) (py "a2")]).
Proof.
  apply (round_trip no_repr no_uuid).
  simpl. repeat constructor.
Defined.

(** C5 fails as stated: an action whose description is empty comes
    back from a save and a load with a generated description. *)
Lemma round_trip_counterexample :
  ActionSequence_from_dict no_repr no_uuid
    (ActionSequence_to_dict (demo_sequence [press_a (PStr []) (py "a1")]))
  = Ok (demo_sequence [press_a press_a_text (py "a1")])
  /\ map description (actions (demo_sequence [press_a (PStr []) (py "a1")]))
     = [PStr []]
  /\ map description
       (actions (demo_sequence [press_a press_a_text (py "a1")]))
     = [PStr [25353; 38190; 58; 32; 97]%N].
Proof. repeat split. Qed.

(** The constructor leaves every action with a description that
    counts as true. *)
Lemma generated_description_nonempty repr_other (a : Action) (d : pystr) :
  _generate_description repr_other a = Ok d -> truthy (PStr d) = true.
Proof.
  unfold _generate_description, at_position.
  destruct (action_type a);
    repeat match goal with
      | |- context [get ?p ?k ?v] =>
          destruct (get p k v); simpl; try discriminate
      | |- context [gt_zero ?v] => destruct (gt_zero v); simpl; try discriminate
      | |- context [abs ?v] => destruct (abs v); simpl; try discriminate
      | |- context [len ?v] => destruct (len v); simpl; try discriminate
      | |- context [join ?p ?v] => destruct (join p v); simpl; try discriminate
      | |- context [if ?b then _ else _] => destruct b; simpl; try discriminate
      | |- context [truncate20 ?v] =>
          destruct (truncate20 v); simpl; try discriminate
      end;
    intros [= <-]; reflexivity.
Qed.

Lemma Action_new_description repr_other t p d i e (a : Action) :
  Action_new repr_other t p d i e = Ok a -> truthy (description a) = true.
Proof.
  unfold Action_new. destruct (truthy d) eqn:Hd.
  - intros [= <-]. exact Hd.
  - destruct (_generate_description _ _) as [g|x] eqn:Hg; [|discriminate].
    simpl. intros [= <-]. simpl.
    apply generated_description_nonempty in Hg. exact Hg.
Qed.

(** *** Loading data that is not a saved sequence *)








End ActionModelFacts.

(** ** Properties of the countdown *)
Module SchedulerFacts.
Import Scheduler Notions.

Lemma down_from_length (v : Z) (n : nat) : length (down_from v n) = n.
Proof. revert v. induction n as [|n IH]; intros v; simpl; auto. Qed.

Lemma down_from_lookup (n : nat) :
  forall (v : Z) (i : nat) (x : Z),
    down_from v n !! i = Some x <-> (i < n)%nat /\ x = v - Z.of_nat i.
Proof.
  induction n as [|n IH]; intros v i x; simpl.
  - split; [discriminate | lia].
  - destruct i as [|i]; simpl.
    + split; [intros [= <-]; lia | intros [_ ->]; f_equal; lia].
    + rewrite IH. split; intros [Hi ->]; split; lia.
Qed.

Lemma down_from_app (a b : nat) :
  forall v, down_from v (a + b) = down_from v a ++ down_from (v - Z.of_nat a) b.
Proof.
  induction a as [|a IH]; intros v.
  - simpl. f_equal. lia.
  - cbn [Nat.add down_from app]. rewrite IH. do 3 f_equal. lia.
Qed.

Lemma down_from_bounds (n : nat) :
  forall v x, x ∈ down_from v n -> v - Z.of_nat n < x <= v.
Proof.
  induction n as [|n IH]; intros v x Hx; simpl in Hx.
  - apply elem_of_nil in Hx. contradiction.
  - apply elem_of_cons in Hx. destruct Hx as [-> | Hx]; [lia|].
    apply IH in Hx. lia.
Qed.

(** The countdown never touches the callbacks or the threshold. *)
Lemma tick_step_with_state self timer remaining running v :
  tick_step (with_state self timer remaining running) v = tick_step self v.
Proof. reflexivity. Qed.

Lemma complete_step_with_state self timer remaining running :
  complete_step (with_state self timer remaining running) = complete_step self.
Proof. reflexivity. Qed.

Lemma with_state_twice self t r b t' r' b' :
  with_state (with_state self t r b) t' r' b' = with_state self t' r' b'.
Proof. reflexivity. Qed.

(** One firing while time remains, and the last firing. *)
Lemma fire_tick self timer (r : Z) :
  0 < r ->
  fire (with_state self timer r true)
  = (with_state self true (r - 1) true, tick_step self r).
Proof.
  intros Hr. unfold fire, _start_countdown_tick. simpl.
  destruct (Z.leb_spec r 0); [lia|]. reflexivity.
Qed.

Lemma fire_complete self timer (r : Z) :
  r <= 0 ->
  fire (with_state self timer r true)
  = (with_state self false r false, complete_step self).
Proof.
  intros Hr. unfold fire, _start_countdown_tick. simpl.
  destruct (Z.leb_spec r 0); [|lia]. reflexivity.
Qed.

(** The timers of a countdown with [r] seconds left fire [r + 1]
    times: a step for each of [r, ..., 1] and the completing one. *)
Lemma run_to_completion (n : nat) :
  forall self (fuel : nat),
    (n < fuel)%nat ->
    run fuel (with_state self true (Z.of_nat n) true)
    = Some (with_state self false 0 false,
            map (tick_step self) (down_from (Z.of_nat n) n)
            ++ [complete_step self]).
Proof.
  induction n as [|n IH]; intros self fuel Hfuel;
    (destruct fuel as [|fuel]; [lia|]).
  - cbn [run _countdown_timer with_state].
    rewrite fire_complete by lia.
    destruct fuel; reflexivity.
  - cbn [run _countdown_timer with_state].
    rewrite fire_tick by lia.
    replace (Z.of_nat (S n) - 1) with (Z.of_nat n) by lia.
    rewrite (IH self fuel) by lia.
    cbn [down_from map app].
    replace (Z.of_nat (S n) - 1) with (Z.of_nat n) by lia.
    reflexivity.
Qed.

Lemma start_tick self (seconds : Z) :
  0 < seconds ->
  start self seconds
  = (with_state self true (seconds - 1) true, tick_step self seconds).
Proof.
  intros Hs. unfold start, _start_countdown_tick.
  destruct (_is_running self); simpl;
    (destruct (Z.leb_spec seconds 0); [lia|]); reflexivity.
Qed.

(** A whole countdown: the steps for [seconds, ..., 1], then the
    completing step. *)
Lemma countdown_steps self (seconds : Z) (fuel : nat) :
  1 <= seconds -> (Z.to_nat seconds <= fuel)%nat ->
  countdown fuel self seconds
  = Some (with_state self false 0 false,
          map (tick_step self) (down_from seconds (Z.to_nat seconds))
          ++ [complete_step self]).
Proof.
  intros Hs Hfuel. unfold countdown. rewrite start_tick by lia.
  pose (n := Z.to_nat (seconds - 1)).
  replace (seconds - 1) with (Z.of_nat n) by lia.
  rewrite run_to_completion by lia.
  replace (Z.to_nat seconds) with (S n) by lia.
  cbn [down_from map app].
  replace (seconds - 1) with (Z.of_nat n) by lia.
  reflexivity.
Qed.

Lemma ticks_app (l k : list notification) : ticks (l ++ k) = ticks l ++ ticks k.
Proof.
  induction l as [|[v|v|] l IH]; simpl; rewrite ?IH; reflexivity.
Qed.

(** With the tick callback installed, the tick values of the steps
    for [vs] are [vs]. *)
Lemma ticks_of_steps self (vs : list Z) :
  _on_tick_callback self = true ->
  ticks (concat (map (tick_step self) vs)) = vs.
Proof.
  intros Ht. induction vs as [|v vs IH]; simpl; [reflexivity|].
  rewrite ticks_app, IH. unfold tick_step. rewrite Ht.
  destruct (_ && _)%bool; reflexivity.
Qed.

Lemma steps_not_complete self (vs : list Z) :
  Forall (fun n => is_complete n = false) (concat (map (tick_step self) vs)).
Proof.
  induction vs as [|v vs IH]; simpl; [constructor|].
  apply Forall_app. split; [|exact IH].
  unfold tick_step.
  destruct (_on_tick_callback self), (_ && _)%bool; repeat constructor.
Qed.

(** C1, as the code has it. Started with [seconds >= 1] and left to
    run, the countdown ends (given enough firings), having called the
    tick callback exactly [seconds] times, with the values [seconds,
    seconds - 1, ..., 1] in this order (the value at position [i] is
    [seconds - i]: the count before the decrement), and then the
    complete callback once, as the last call of the run. *)
Theorem countdown_notifications
    (self : ShutdownScheduler) (seconds : Z) (fuel : nat) :
  _on_tick_callback self = true ->
  _on_complete_callback self = true ->
  1 <= seconds ->
  (Z.to_nat seconds <= fuel)%nat ->
  exists final steps,
    countdown fuel self seconds = Some (final, steps)
    /\ _is_running final = false
    /\ _countdown_timer final = false
    /\ ticks (concat steps) = down_from seconds (Z.to_nat seconds)
    /\ length (ticks (concat steps)) = Z.to_nat seconds
    /\ (forall (i : nat) (v : Z),
           ticks (concat steps) !! i = Some v
           <-> (i < Z.to_nat seconds)%nat /\ v = seconds - Z.of_nat i)
    /\ exists before,
        concat steps = before ++ [Complete]
        /\ Forall (fun n => is_complete n = false) before.
Proof.
  intros Ht Hc Hs Hfuel.
  eexists _, _. split; [apply countdown_steps; assumption|].
  assert (Hticks :
    ticks (concat (map (tick_step self) (down_from seconds (Z.to_nat seconds))
                   ++ [complete_step self]))
    = down_from seconds (Z.to_nat seconds)).
  { rewrite concat_app, ticks_app, ticks_of_steps by exact Ht.
    unfold complete_step. rewrite Hc. simpl. apply app_nil_r. }
  split; [reflexivity|]. split; [reflexivity|].
  split; [exact Hticks|].
  split; [rewrite Hticks; apply down_from_length|].
  split; [intros i v; rewrite Hticks; apply down_from_lookup|].
  exists (concat (map (tick_step self) (down_from seconds (Z.to_nat seconds)))).
  split; [|apply steps_not_complete].
  rewrite concat_app. unfold complete_step. rewrite Hc. reflexivity.
Qed.

Lemma countdown_notifications_witness :
  exists final steps,
    countdown 3 subscribed 3 = Some (final, steps)
    /\ _is_running final = false
    /\ _countdown_timer final = false
    /\ ticks (concat steps) = down_from 3 (Z.to_nat 3)
    /\ length (ticks (concat steps)) = Z.to_nat 3
    /\ (forall (i : nat) (v : Z),
           ticks (concat steps) !! i = Some v
           <-> (i < Z.to_nat 3)%nat /\ v = 3 - Z.of_nat i)
    /\ exists before,
        concat steps = before ++ [Complete]
        /\ Forall (fun n => is_complete n = false) before.
Proof.
  apply (countdown_notifications subscribed 3 3);
    [reflexivity | reflexivity | lia | simpl; lia].
Defined.

(** C1 fails as stated: a countdown of one second calls the tick
    callback with 1, where the specification lists the values
    [seconds - 1, ..., 0], here 0. *)
Lemma countdown_counterexample :
  countdown 1 subscribed 1
  = Some (with_state subscribed false 0 false, [[Tick 1]; [Complete]])
  /\ ticks (concat [[Tick 1]; [Complete]]) = [1]
  /\ down_from (1 - 1) (Z.to_nat 1) = [0].
Proof. repeat split. Qed.

Lemma tick_step_no_warning self (v : Z) :
  v <> _warning_seconds self -> no_warning (tick_step self v).
Proof.
  intros Hv. unfold tick_step, no_warning.
  destruct (Z.eqb_spec v (_warning_seconds self)); [contradiction|].
  simpl. destruct (_on_tick_callback self); repeat constructor.
Qed.

Lemma steps_no_warning self (vs : list Z) :
  Forall (fun v => v <> _warning_seconds self) vs ->
  Forall no_warning (map (tick_step self) vs).
Proof.
  induction 1 as [|v vs Hv _ IH]; simpl; constructor; [|exact IH].
  apply tick_step_no_warning. exact Hv.
Qed.

Lemma complete_step_no_warning self : no_warning (complete_step self).
Proof.
  unfold complete_step, no_warning.
  destruct (_on_complete_callback self); repeat constructor.
Qed.

(** C2, as the code has it. With the threshold set to [w], where
    [1 <= w < seconds], a countdown left to run calls the warning
    callback exactly once, in the step that calls the tick callback
    with [w]: no step before or after it holds a warning. *)
Theorem warning_once
    (self : ShutdownScheduler) (seconds w : Z) (fuel : nat) :
  _on_tick_callback self = true ->
  _on_warning_callback self = true ->
  1 <= w < seconds ->
  (Z.to_nat seconds <= fuel)%nat ->
  exists final before after,
    countdown fuel (set_warning_seconds self w) seconds
    = Some (final, before ++ [Tick w; Warning w] :: after)
    /\ Forall no_warning before
    /\ Forall no_warning after.
Proof.
  intros Ht Hw Hrange Hfuel.
  set (armed := set_warning_seconds self w).
  pose (a := Z.to_nat (seconds - w)). pose (b := Z.to_nat (w - 1)).
  assert (Hsplit : down_from seconds (Z.to_nat seconds)
                   = down_from seconds a ++ w :: down_from (w - 1) b).
  { replace (Z.to_nat seconds) with (a + S b)%nat by lia.
    rewrite down_from_app. cbn [down_from].
    replace (seconds - Z.of_nat a) with w by lia. reflexivity. }
  exists (with_state armed false 0 false),
    (map (tick_step armed) (down_from seconds a)),
    (map (tick_step armed) (down_from (w - 1) b) ++ [complete_step armed]).
  split; [|split].
  - rewrite countdown_steps by lia.
    rewrite Hsplit, map_app. cbn [map].
    rewrite <- app_assoc. cbn [app].
    replace (tick_step armed w) with [Tick w; Warning w]; [reflexivity|].
    unfold tick_step, armed. simpl. rewrite Ht, Hw, Z.eqb_refl. reflexivity.
  - apply steps_no_warning, Forall_forall. intros v Hv.
    apply down_from_bounds in Hv. unfold armed. simpl. lia.
  - apply Forall_app. split.
    + apply steps_no_warning, Forall_forall. intros v Hv.
      apply down_from_bounds in Hv. unfold armed. simpl. lia.
    + repeat constructor. apply complete_step_no_warning.
Qed.

Lemma warning_once_witness :
  exists final before after,
    countdown 3 (set_warning_seconds subscribed 2) 3
    = Some (final, before ++ [Tick 2; Warning 2] :: after)
    /\ Forall no_warning before
    /\ Forall no_warning after.
Proof.
  apply (warning_once subscribed 3 2 3);
    [reflexivity | reflexivity | lia | simpl; lia].
Defined.

(** C2 fails as stated: with the threshold 0 a countdown of one
    second runs to its end without calling the warning callback, and
    no tick carries 0. *)
Lemma warning_counterexample :
  countdown 1 (set_warning_seconds subscribed 0) 1
  = Some (with_state (set_warning_seconds subscribed 0) false 0 false,
          [[Tick 1]; [Complete]])
  /\ List.filter is_warning (concat [[Tick 1]; [Complete]]) = []
  /\ ticks (concat [[Tick 1]; [Complete]]) = [1].
Proof. repeat split. Qed.

End SchedulerFacts.

(** ** Properties of the executor *)
Module ExecutorFacts.
Import Py ActionModel Executor Notions.

(** *** What the computations add to the log *)

Lemma adds_ret {A} (P : event -> Prop) (a : A) : adds P (ret a).
Proof. intros w. exists []. simpl. rewrite app_nil_r. auto. Qed.

Lemma adds_lift {A} (P : event -> Prop) (r : result A) : adds P (lift r).
Proof. intros w. exists []. simpl. rewrite app_nil_r. auto. Qed.

Lemma adds_seq {A B} (P : event -> Prop) (m : M A) (k : A -> M B) :
  adds P m -> (forall a, adds P (k a)) -> adds P (seq m k).
Proof.
  intros Hm Hk w. unfold seq.
  destruct (Hm w) as (d1 & H1 & F1).
  destruct (m w) as [[a|e] w1]; simpl in *.
  - destruct (Hk a w1) as (d2 & H2 & F2).
    exists (d1 ++ d2). rewrite H2, H1, app_assoc. split; [reflexivity|].
    apply Forall_app. auto.
  - exists d1. auto.
Qed.

Lemma adds_try_finally {A} (P : event -> Prop) (body : M A) (cleanup : M unit) :
  adds P body -> adds P cleanup -> adds P (try_finally body cleanup).
Proof.
  intros Hb Hc w. unfold try_finally.
  destruct (Hb w) as (d1 & H1 & F1).
  destruct (body w) as [r w1]; simpl in *.
  destruct (Hc w1) as (d2 & H2 & F2).
  exists (d1 ++ d2).
  destruct (cleanup w1) as [[u|e] w2]; simpl in *;
    rewrite H2, H1, app_assoc; (split; [reflexivity|]);
    apply Forall_app; auto.
Qed.

Lemma adds_for_each {A} (P : event -> Prop) (l : list A) (body : A -> M unit) :
  (forall x, adds P (body x)) -> adds P (for_each l body).
Proof.
  intros Hb. induction l as [|x l IH]; simpl.
  - apply adds_ret.
  - apply adds_seq; [apply Hb | intros _; exact IH].
Qed.

Lemma adds_weaken {A} (P Q : event -> Prop) (m : M A) :
  (forall e, P e -> Q e) -> adds P m -> adds Q m.
Proof.
  intros HPQ Hm w. destruct (Hm w) as (d & H & F).
  exists d. split; [exact H|]. eapply Forall_impl; eauto.
Qed.

Section Outside.
Variable repr_other : pyval -> pystr.
Variable driver_raises : list event -> call -> bool.

Lemma adds_external (P : event -> Prop) (c : call) :
  P (Called c) -> adds P (external driver_raises c).
Proof. intros Hc w. exists [Called c]. simpl. auto. Qed.

Lemma adds_paste (P : event -> Prop) :
  P (Called ClipboardPaste) -> adds P pyperclip_paste.
Proof. intros Hc w. exists [Called ClipboardPaste]. simpl. auto. Qed.

Lemma adds_copy (P : event -> Prop) (v : pyval) :
  P (Called (ClipboardCopy v)) -> adds P (pyperclip_copy repr_other v).
Proof.
  intros Hc w. exists [Called (ClipboardCopy v)].
  unfold pyperclip_copy. destruct v; simpl; auto.
Qed.

Lemma paste_text_adds (text interval : pyval) :
  adds clipboard_path (paste_text repr_other driver_raises text interval).
Proof.
  unfold paste_text.
  apply adds_seq; [apply adds_lift|]. intros [|].
  - apply adds_seq; [apply adds_lift|]. intros chars.
    apply adds_for_each. intros char.
    apply adds_seq; [apply adds_copy; exact I|]. intros _.
    apply adds_seq; [apply adds_external; exact I|]. intros _.
    apply adds_external. exact I.
  - apply adds_seq; [apply adds_copy; exact I|]. intros _.
    apply adds_external. exact I.
Qed.

(** Copying text back in a [finally] always succeeds: the block's
    outcome stands and the clipboard holds the text. *)
Lemma try_finally_copy {A} (body : M A) (s : pystr) (w : World) :
  try_finally body (pyperclip_copy repr_other (PStr s)) w
  = (fst (body w),
     {| clipboard := s;
        log := log (snd (body w)) ++ [Called (ClipboardCopy (PStr s))] |}).
Proof. unfold try_finally. destruct (body w) as [r w1]. reflexivity. Qed.

Lemma type_unicode_unfold (text interval : pyval) (w : World) :
  type_unicode repr_other driver_raises text interval w
  = try_finally (paste_text repr_other driver_raises text interval)
      (pyperclip_copy repr_other (PStr (clipboard w)))
      (record (Called ClipboardPaste) w).
Proof. reflexivity. Qed.

(** [type_unicode] reads the clipboard first, goes on with calls of
    the clipboard path only, ends by copying back what it read, and
    leaves the clipboard as it found it, whether it returns or
    raises. *)
Lemma type_unicode_restores (text interval : pyval) (w : World) :
  exists delta,
    log (snd (type_unicode repr_other driver_raises text interval w))
    = log w ++ Called ClipboardPaste :: delta
        ++ [Called (ClipboardCopy (PStr (clipboard w)))]
    /\ Forall clipboard_path delta
    /\ clipboard (snd (type_unicode repr_other driver_raises text interval w))
       = clipboard w.
Proof.
  rewrite type_unicode_unfold, try_finally_copy. simpl.
  destruct (paste_text_adds text interval (record (Called ClipboardPaste) w))
    as (d & H & F).
  exists d. rewrite H. simpl. rewrite <- !app_assoc. simpl. auto.
Qed.

Lemma type_unicode_adds (text interval : pyval) :
  adds is_call (type_unicode repr_other driver_raises text interval).
Proof.
  intros w. destruct (type_unicode_restores text interval w) as (d & H & F & _).
  eexists. split; [exact H|].
  constructor; [exact I|]. apply Forall_app. split.
  - eapply Forall_impl; [exact F|]. intros [[]|]; simpl; tauto.
  - repeat constructor.
Qed.

Lemma seq_assoc {A B C} (m : M A) (k : A -> M B) (k' : B -> M C) (w : World) :
  seq (seq m k) k' w = seq m (fun a => seq (k a) k') w.
Proof. unfold seq. destruct (m w) as [[a|e] w1]; reflexivity. Qed.

Lemma seq_copy_str {A} (s : pystr) (k : unit -> M A) (w : World) :
  seq (pyperclip_copy repr_other (PStr s)) k w
  = k tt {| clipboard := s;
            log := log w ++ [Called (ClipboardCopy (PStr s))] |}.
Proof. reflexivity. Qed.

Lemma seq_external {A} (c : call) (k : unit -> M A) (w : World) :
  seq (external driver_raises c) k w
  = if driver_raises (log w) c
    then (Raise DriverError, record (Called c) w)
    else k tt (record (Called c) w).
Proof.
  unfold seq, external. destruct (driver_raises (log w) c); reflexivity.
Qed.

(** The paced loop of [type_unicode] makes the planned calls up to
    the first one that fails. *)
Lemma for_each_attempts (interval : pyval) (text : pystr) :
  forall w,
    fst (for_each (map (fun c => PStr [c]) text)
           (fun char =>
              pyperclip_copy repr_other char ;;
              external driver_raises PasteKeystroke ;;
              external driver_raises (Sleep interval)) w)
    = (if snd (attempted driver_raises (log w) (planned true text interval))
       then Raise DriverError else Ok tt)
    /\ log (snd (for_each (map (fun c => PStr [c]) text)
                   (fun char =>
                      pyperclip_copy repr_other char ;;
                      external driver_raises PasteKeystroke ;;
                      external driver_raises (Sleep interval)) w))
       = log w
           ++ fst (attempted driver_raises (log w)
                     (planned true text interval)).
Proof.
  induction text as [|c text IH]; intros w.
  - simpl. rewrite app_nil_r. auto.
  - cbn [map for_each planned flat_map app attempted refused].
    rewrite seq_assoc, seq_copy_str, seq_assoc, seq_external.
    cbn [log record clipboard].
    destruct (driver_raises (log w ++ [Called (ClipboardCopy (PStr [c]))])
                PasteKeystroke).
    + cbn. rewrite <- app_assoc. auto.
    + rewrite seq_external. cbn [log record clipboard].
      destruct (driver_raises
                  ((log w ++ [Called (ClipboardCopy (PStr [c]))])
                   ++ [Called PasteKeystroke])
                  (Sleep interval)).
      * cbn. rewrite <- !app_assoc. auto.
      * unfold record. cbn [log clipboard].
        match goal with
        | |- context [for_each _ _ ?w1] => destruct (IH w1) as [Hr Hl]
        end.
        cbn [log planned] in Hr, Hl. rewrite Hr, Hl.
        match goal with
        | |- context [attempted ?r ?b ?p] => destruct (attempted r b p)
        end.
        cbn. rewrite <- !app_assoc. auto.
Qed.

(** The [try] block of [type_unicode] on a string: when the interval
    compares with 0 it makes the planned calls up to the first one
    that fails, and it raises at once when it does not. *)
Lemma paste_text_attempts (text : pystr) (interval : pyval) (w : World) :
  match gt_zero interval with
  | Ok paced =>
      fst (paste_text repr_other driver_raises (PStr text) interval w)
      = (if snd (attempted driver_raises (log w)
                   (planned paced text interval))
         then Raise DriverError else Ok tt)
      /\ log (snd (paste_text repr_other driver_raises (PStr text)
                     interval w))
         = log w
             ++ fst (attempted driver_raises (log w)
                       (planned paced text interval))
  | Raise e =>
      paste_text repr_other driver_raises (PStr text) interval w
      = (Raise e, w)
  end.
Proof.
  unfold paste_text, seq at 1, lift at 1.
  destruct (gt_zero interval) as [[|]|e]; [| |reflexivity].
  - unfold seq at 1, lift at 1. cbn [iterate]. apply for_each_attempts.
  - cbn [planned attempted refused].
    rewrite seq_copy_str. unfold external. cbn [log record clipboard].
    destruct (driver_raises (log w ++ [Called (ClipboardCopy (PStr text))])
                PasteKeystroke);
      cbn; rewrite <- app_assoc; auto.
Qed.

(** The calls made of a plan are calls of the plan. *)
Lemma attempted_Forall (P : event -> Prop) (calls : list call) :
  Forall (fun c => P (Called c)) calls ->
  forall before, Forall P (fst (attempted driver_raises before calls)).
Proof.
  induction 1 as [|c calls Hc _ IH]; intros before; simpl.
  - constructor.
  - destruct (refused driver_raises before c).
    + repeat constructor. exact Hc.
    + specialize (IH (before ++ [Called c])).
      destruct (attempted driver_raises (before ++ [Called c]) calls).
      simpl in *. constructor; assumption.
Qed.

Lemma planned_clipboard_path (paced : bool) (text : pystr) (interval : pyval) :
  Forall (fun c => clipboard_path (Called c)) (planned paced text interval).
Proof.
  destruct paced; simpl.
  - induction text as [|c text IH]; simpl; repeat constructor. exact IH.
  - repeat constructor.
Qed.

(** A delivery of text that is not empty gets as far as a copy and a
    paste keystroke. *)
Lemma attempted_starts (paced : bool) (text : pystr) (interval : pyval)
    (before : list event) :
  text <> [] ->
  exists v rest,
    fst (attempted driver_raises before (planned paced text interval))
    = Called (ClipboardCopy v) :: Called PasteKeystroke :: rest.
Proof.
  intros Htext. destruct text as [|c text]; [congruence|].
  destruct paced; cbn [planned flat_map app attempted refused];
    repeat match goal with
           | |- context [driver_raises ?b ?c] => destruct (driver_raises b c)
           end;
    repeat match goal with
           | |- context [attempted ?r ?b ?p] => destruct (attempted r b p)
           end;
    cbn; eauto.
Qed.

Lemma dispatch_adds (action : Action) :
  adds is_call (dispatch repr_other driver_raises action).
Proof.
  unfold dispatch.
  destruct (action_type action);
    repeat (apply adds_seq; [apply adds_lift|]; intros ?);
    try (apply adds_external; exact I).
  match goal with
  | |- adds _ (if ?b then _ else _) => destruct b
  end.
  - apply type_unicode_adds.
  - apply adds_external. exact I.
Qed.

(** *** Steps of a run *)

Abbreviation execute_action :=
  (Executor.execute_action repr_other driver_raises).
Abbreviation loop := (Executor.loop repr_other driver_raises).
Abbreviation execute_sequence :=
  (Executor.execute_sequence repr_other driver_raises).
Abbreviation state_before :=
  (Notions.state_before repr_other driver_raises).

Lemma notify_log (installed : bool) (n : notification) (w : World) :
  log (notify installed n w)
  = log w ++ (if installed then [Notified n] else []).
Proof.
  destruct installed; simpl; [reflexivity | symmetry; apply app_nil_r].
Qed.

Lemma notify_clipboard (installed : bool) (n : notification) (w : World) :
  clipboard (notify installed n w) = clipboard w.
Proof. destruct installed; reflexivity. Qed.

Lemma is_call_within (lo hi : nat) (e : event) : is_call e -> within lo hi e.
Proof. destruct e as [c|n]; simpl; tauto. Qed.

Lemma within_mono (lo hi lo' hi' : nat) (e : event) :
  (lo' <= lo)%nat -> (hi <= hi')%nat -> within lo hi e -> within lo' hi' e.
Proof. destruct e as [c|[a j|a j|x a|]]; simpl; lia || tauto. Qed.

(** A disabled action is a success that touches nothing. *)
Lemma execute_action_disabled self (action : Action) (w : World) :
  truthy (enabled action) = false -> execute_action self action w = (true, w).
Proof. intros H. unfold Executor.execute_action. rewrite H. reflexivity. Qed.

(** [execute_action] only adds external calls and, on failure, the
    error notification. *)
Lemma execute_action_adds self (action : Action) (w : World) (lo hi : nat) :
  exists delta,
    log (snd (execute_action self action w)) = log w ++ delta
    /\ Forall (within lo hi) delta.
Proof.
  unfold Executor.execute_action.
  destruct (negb (truthy (enabled action))).
  - exists []. simpl. rewrite app_nil_r. auto.
  - destruct (dispatch_adds action w) as (d & H & F).
    assert (Fw : Forall (within lo hi) d).
    { eapply Forall_impl; [exact F|]. intros e. apply is_call_within. }
    destruct (dispatch repr_other driver_raises action w) as [[u|x] w'];
      simpl in *.
    + exists d. auto.
    + exists (d ++ (if _on_error self then [Notified (ActionError x action)]
                    else [])).
      rewrite notify_log, H, app_assoc. split; [reflexivity|].
      apply Forall_app. split; [exact Fw|].
      destruct (_on_error self); repeat constructor.
Qed.

(** One step of the loop, for a running executor. *)
Lemma loop_step stops (index : nat) (action : Action) (rest : list Action)
    self (success : bool) (w : World) :
  _is_running self = true ->
  loop stops index (action :: rest) self success w
  = let w1 := notify (_on_action_start self) (ActionStart action index) w in
    let r := execute_action self action w1 in
    loop stops (S index) rest
      (if stops index then stop self else self)
      (if negb (fst r) then false else success)
      (notify (_on_action_complete self) (ActionComplete action index) (snd r)).
Proof.
  intros Hrun. cbn [Executor.loop]. rewrite Hrun. cbn [negb].
  destruct (execute_action self action _) as [r w']. reflexivity.
Qed.

(** A stopped executor leaves the loop at once, with failure when
    an action is left. *)
Lemma loop_stopped stops (index : nat) (action : Action) (rest : list Action)
    self (success : bool) (w : World) :
  _is_running self = false ->
  loop stops index (action :: rest) self success w = (false, self, w).
Proof. intros Hrun. cbn [Executor.loop]. rewrite Hrun. reflexivity. Qed.

Lemma loop_app stops (l1 l2 : list Action) :
  forall (index : nat) self (success : bool) (w : World),
    loop stops index (l1 ++ l2) self success w
    = let '(s1, self1, w1) := loop stops index l1 self success w in
      loop stops (index + length l1) l2 self1 s1 w1.
Proof.
  induction l1 as [|a l1 IH]; intros index self success w.
  - cbn [app length Executor.loop]. rewrite Nat.add_0_r. reflexivity.
  - destruct (_is_running self) eqn:Hrun.
    + cbn [app]. rewrite !loop_step by exact Hrun. cbv zeta.
      rewrite IH. cbn [length]. rewrite Nat.add_succ_r. reflexivity.
    + cbn [app]. rewrite !loop_stopped by exact Hrun.
      destruct l2 as [|b l2]; [reflexivity|].
      rewrite loop_stopped by exact Hrun. reflexivity.
Qed.

(** What the loop adds to the log belongs to its own steps. *)
Lemma loop_adds stops (l : list Action) :
  forall (index : nat) self (success : bool) (w : World),
    exists delta,
      log (snd (loop stops index l self success w)) = log w ++ delta
      /\ Forall (within index (index + length l)) delta.
Proof.
  induction l as [|a l IH]; intros index self success w.
  - exists []. simpl. rewrite app_nil_r. auto.
  - destruct (_is_running self) eqn:Hrun.
    + rewrite loop_step by exact Hrun. cbv zeta.
      set (w1 := notify _ (ActionStart a index) w).
      destruct (execute_action_adds self a w1 index (S index))
        as (d & Hd & Fd).
      destruct (execute_action self a w1) as [r w2]. simpl in Hd.
      cbn [fst snd].
      set (w3 := notify _ (ActionComplete a index) w2).
      destruct (IH (S index) (if stops index then stop self else self)
                  (if negb r then false else success) w3)
        as (d' & Hd' & Fd').
      eexists. split.
      * rewrite Hd'. unfold w3. rewrite notify_log, Hd. unfold w1.
        rewrite notify_log, <- !app_assoc. reflexivity.
      * cbn [length].
        apply Forall_app_2;
          [|apply Forall_app_2; [|apply Forall_app_2]].
        -- destruct (_on_action_start self); repeat constructor; simpl; lia.
        -- eapply Forall_impl; [exact Fd|]. intros e.
           apply within_mono; lia.
        -- destruct (_on_action_complete self); repeat constructor;
             simpl; lia.
        -- eapply Forall_impl; [exact Fd'|]. intros e.
           apply within_mono; lia.
    + rewrite loop_stopped by exact Hrun.
      exists []. simpl. rewrite app_nil_r. auto.
Qed.

(** Once the result is a failure it stays one. *)
Lemma loop_failed stops (l : list Action) :
  forall (index : nat) self (w : World),
    fst (fst (loop stops index l self false w)) = false.
Proof.
  induction l as [|a l IH]; intros index self w; [reflexivity|].
  destruct (_is_running self) eqn:Hrun.
  - rewrite loop_step by exact Hrun. cbv zeta.
    destruct (negb _); apply IH.
  - rewrite loop_stopped by exact Hrun. reflexivity.
Qed.

(** While [stop()] is not called the executor stays as it is. *)
Lemma loop_not_stopped stops (l : list Action) :
  forall (index : nat) self (success : bool) (w : World),
    _is_running self = true ->
    (forall j, (index <= j < index + length l)%nat -> stops j = false) ->
    snd (fst (loop stops index l self success w)) = self.
Proof.
  induction l as [|a l IH]; intros index self success w Hrun Hstops;
    [reflexivity|].
  rewrite loop_step by exact Hrun. cbv zeta.
  rewrite (Hstops index) by (cbn [length]; lia).
  apply IH; [exact Hrun|].
  intros j Hj. apply Hstops. cbn [length]. lia.
Qed.

Lemma execute_action_set_running self (b : bool) (action : Action) (w : World) :
  execute_action (set_running self b) action w = execute_action self action w.
Proof. reflexivity. Qed.

(** Until [stop()] is called the executor is the running one. *)
Lemma state_before_running stops self sequence (w : World) (i : nat) :
  (forall j, (j < i)%nat -> stops j = false) ->
  snd (fst (state_before stops self sequence w i)) = set_running self true.
Proof.
  intros Hstops. unfold Notions.state_before.
  apply loop_not_stopped; [reflexivity|].
  intros j Hj. apply Hstops. rewrite length_take in Hj. lia.
Qed.

(** The step of index [i], when [stop()] was not called before. *)
Lemma step_at stops self sequence (w : World) (i : nat) (a : Action) :
  actions sequence !! i = Some a ->
  (forall j, (j < i)%nat -> stops j = false) ->
  state_before stops self sequence w (S i)
  = let '(s, _, w_i) := state_before stops self sequence w i in
    let w1 := notify (_on_action_start self) (ActionStart a i) w_i in
    let r := execute_action self a w1 in
    (if negb (fst r) then false else s,
     if stops i then stop (set_running self true) else set_running self true,
     notify (_on_action_complete self) (ActionComplete a i) (snd r)).
Proof.
  intros Ha Hstops.
  pose proof (state_before_running stops self sequence w i Hstops) as Hrun.
  unfold Notions.state_before in *.
  rewrite (take_S_r _ _ _ Ha), loop_app.
  assert (Hlen : length (take i (actions sequence)) = i).
  { rewrite length_take. apply lookup_lt_Some in Ha. lia. }
  rewrite Hlen.
  destruct (loop stops 0 (take i (actions sequence))
              (set_running self true) true w) as [[s e] w_i].
  simpl in Hrun. subst e.
  rewrite loop_step by reflexivity. reflexivity.
Qed.

(** The loop writes no field of the executor but [_is_running]. *)
Lemma loop_callbacks stops (l : list Action) :
  forall (index : nat) self (success : bool) (w : World),
    set_running (snd (fst (loop stops index l self success w))) false
    = set_running self false.
Proof.
  induction l as [|a l IH]; intros index self success w; [reflexivity|].
  destruct (_is_running self) eqn:Hrun.
  - rewrite loop_step by exact Hrun. cbv zeta. rewrite IH.
    destruct (stops index); reflexivity.
  - rewrite loop_stopped by exact Hrun. reflexivity.
Qed.

Lemma same_sequence_complete (e self : ActionExecutor) :
  set_running e false = set_running self false ->
  _on_sequence_complete e = _on_sequence_complete self.
Proof. intros H. apply (f_equal _on_sequence_complete) in H. exact H. Qed.

(** The run, continued from the step of index [i]. *)
Lemma run_from stops self sequence (w : World) (i : nat) :
  execute_sequence stops self sequence w
  = let '(s, e, w_i) := state_before stops self sequence w i in
    let '(s', e', w') := loop stops i (drop i (actions sequence)) e s w_i in
    (s', set_running e' false,
     notify (_on_sequence_complete self) SequenceComplete w').
Proof.
  unfold Executor.execute_sequence, Notions.state_before.
  rewrite <- (take_drop i (actions sequence)) at 1.
  rewrite loop_app.
  pose proof (loop_callbacks stops (take i (actions sequence)) 0
                (set_running self true) true w) as Hcb.
  destruct (Nat.le_gt_cases (length (actions sequence)) i) as [Hi|Hi].
  - rewrite (drop_ge _ _ Hi).
    destruct (loop stops 0 (take i (actions sequence))
                (set_running self true) true w) as [[s e] w_i].
    simpl in *.
    rewrite (same_sequence_complete e (set_running self true) Hcb), Hcb.
    reflexivity.
  - assert (Hlen : length (take i (actions sequence)) = i)
      by (rewrite length_take; lia).
    rewrite Hlen.
    destruct (loop stops 0 (take i (actions sequence))
                (set_running self true) true w) as [[s e] w_i].
    simpl in Hcb. simpl.
    pose proof (loop_callbacks stops (drop i (actions sequence)) i e s w_i)
      as Hcb'.
    destruct (loop stops i (drop i (actions sequence)) e s w_i)
      as [[s' e'] w'].
    simpl in Hcb'. rewrite Hcb in Hcb'.
    rewrite (same_sequence_complete e' (set_running self true) Hcb').
    reflexivity.
Qed.

(** A [stop()] during the step of index [k], with an action left
    after it, ends the run there, with failure. *)
Lemma stop_ends_run stops self sequence (w : World) (k : nat) :
  first_stop stops k ->
  (S k < length (actions sequence))%nat ->
  execute_sequence stops self sequence w
  = (false, set_running self false,
     notify (_on_sequence_complete self) SequenceComplete
       (snd (state_before stops self sequence w (S k)))).
Proof.
  intros [Hk Hbefore] Hlen.
  destruct (lookup_lt_is_Some_2 (actions sequence) k) as [a Ha]; [lia|].
  destruct (lookup_lt_is_Some_2 (actions sequence) (S k)) as [b Hb]; [lia|].
  rewrite (run_from stops self sequence w (S k)).
  rewrite (step_at stops self sequence w k a Ha Hbefore).
  destruct (state_before stops self sequence w k) as [[s e] w_k].
  cbv zeta. rewrite Hk.
  rewrite (drop_S _ _ _ Hb).
  rewrite loop_stopped by reflexivity. reflexivity.
Qed.

(** *** What a run logs *)

Lemma since_app (w w' : World) (delta : list event) :
  log w' = log w ++ delta -> since w w' = delta.
Proof. intros H. unfold since. rewrite H. apply drop_app_length. Qed.

Lemma within_not_sequence_complete (lo hi : nat) (d : list event) :
  Forall (within lo hi) d -> List.filter is_sequence_complete d = [].
Proof.
  induction 1 as [|e d He _ IH]; [reflexivity|].
  destruct e as [c|[a j|a j|x a|]]; simpl in *; try exact IH.
  contradiction.
Qed.

Lemma state_before_adds stops self sequence (w : World) (i : nat) :
  exists delta,
    log (snd (state_before stops self sequence w i)) = log w ++ delta
    /\ Forall (within 0 i) delta.
Proof.
  unfold Notions.state_before.
  destruct (loop_adds stops (take i (actions sequence)) 0
              (set_running self true) true w) as (d & H & F).
  exists d. split; [exact H|].
  eapply Forall_impl; [exact F|]. intros e.
  apply within_mono; [lia|]. rewrite length_take. lia.
Qed.

(** What is logged up to the end of the step of index [k], when
    [stop()] was not called before it: the earlier steps, the start
    of the step, and the rest of the step. *)
Lemma step_log stops self sequence (w : World) (k : nat) (a : Action) :
  actions sequence !! k = Some a ->
  (forall j, (j < k)%nat -> stops j = false) ->
  exists earlier rest,
    log (snd (state_before stops self sequence w (S k)))
    = log w ++ earlier
        ++ (if _on_action_start self then [Notified (ActionStart a k)]
            else [])
        ++ rest
    /\ Forall (within 0 k) earlier
    /\ Forall (within k (S k)) rest.
Proof.
  intros Ha Hstops. rewrite (step_at stops self sequence w k a Ha Hstops).
  destruct (state_before_adds stops self sequence w k) as (d0 & H0 & F0).
  destruct (state_before stops self sequence w k) as [[s e] w_k].
  simpl in H0. cbv zeta. cbn [snd].
  set (w1 := notify (_on_action_start self) (ActionStart a k) w_k).
  destruct (execute_action_adds self a w1 k (S k)) as (d1 & H1 & F1).
  exists d0,
    (d1 ++ (if _on_action_complete self
            then [Notified (ActionComplete a k)] else [])).
  split; [|split; [exact F0|]].
  - rewrite notify_log, H1. unfold w1. rewrite notify_log, H0.
    rewrite <- !app_assoc. reflexivity.
  - apply Forall_app_2; [exact F1|].
    destruct (_on_action_complete self); repeat constructor; simpl; lia.
Qed.

(** C7, as the code has it. When [stop()] is first called during
    the step of index [k] and an action is left after it (index
    [k + 1] is in the sequence), the run returns failure with the
    executor no longer running; no action of an index above [k] is
    started, the action of index [k] was; and the complete callback
    of the sequence is called exactly once, as the last thing. *)
Theorem stop_between_steps stops self sequence (w : World) (k : nat) :
  first_stop stops k ->
  (S k < length (actions sequence))%nat ->
  _on_action_start self = true ->
  _on_sequence_complete self = true ->
  exists self' w',
    execute_sequence stops self sequence w = (false, self', w')
    /\ _is_running self' = false
    /\ (forall a j, Notified (ActionStart a j) ∈ since w w' -> (j <= k)%nat)
    /\ (forall a, actions sequence !! k = Some a ->
                  Notified (ActionStart a k) ∈ since w w')
    /\ List.filter is_sequence_complete (since w w')
       = [Notified SequenceComplete]
    /\ last (since w w') = Some (Notified SequenceComplete).
Proof.
  intros Hstop Hlen Hstart Hcomplete.
  eexists _, _.
  split; [exact (stop_ends_run stops self sequence w k Hstop Hlen)|].
  split; [reflexivity|].
  destruct (lookup_lt_is_Some_2 (actions sequence) k) as [a Ha]; [lia|].
  destruct (step_log stops self sequence w k a Ha (proj2 Hstop))
    as (d0 & d1 & Hlog & F0 & F1).
  rewrite Hstart in Hlog.
  erewrite since_app; cycle 1.
  { rewrite notify_log, Hcomplete, Hlog, <- !app_assoc. reflexivity. }
  split; [|split; [|split]].
  - intros b j Hin.
    rewrite !elem_of_app in Hin.
    destruct Hin as [Hin | [Hin | [Hin | Hin]]].
    + rewrite Forall_forall in F0. apply F0 in Hin. simpl in Hin. lia.
    + apply list_elem_of_singleton in Hin. injection Hin as _ ->. lia.
    + rewrite Forall_forall in F1. apply F1 in Hin. simpl in Hin. lia.
    + apply list_elem_of_singleton in Hin. discriminate.
  - intros b Hb. rewrite Ha in Hb. injection Hb as <-.
    rewrite !elem_of_app. right. left. apply list_elem_of_singleton.
    reflexivity.
  - rewrite !List.filter_app.
    rewrite (within_not_sequence_complete _ _ _ F0),
      (within_not_sequence_complete _ _ _ F1).
    reflexivity.
  - rewrite !app_assoc. apply last_snoc.
Qed.

(** The run goes on from any of its steps: the log only grows. *)
Lemma run_extends stops self sequence (w : World) (i : nat) :
  exists rest,
    log (snd (execute_sequence stops self sequence w))
    = log (snd (state_before stops self sequence w i)) ++ rest.
Proof.
  rewrite (run_from stops self sequence w i).
  destruct (state_before stops self sequence w i) as [[s e] w_i].
  destruct (loop_adds stops (drop i (actions sequence)) i e s w_i)
    as (d & H & _).
  destruct (loop stops i (drop i (actions sequence)) e s w_i)
    as [[s' e'] w'].
  simpl in *. rewrite notify_log, H, <- app_assoc. eauto.
Qed.

(** C9. When the action of index [i] fails while [stop()] has not
    been called, the run returns failure and the action of index
    [i + 1], if there is one, is attempted all the same: right
    after the failed step it gets its start notification and is
    handed to [execute_action], its step ends with its completion
    notification, and the run goes on from there. A [stop()], by
    contrast, ends the run at the end of the step during which it
    comes: what the run leaves is what that step left, with the
    end of the sequence notified, and the result is failure. *)
Theorem failure_continues_stop_ends
    stops self sequence (w : World) (i : nat) (a : Action) (w_failed : World) :
  actions sequence !! i = Some a ->
  (forall j, (j <= i)%nat -> stops j = false) ->
  execute_action self a
    (notify (_on_action_start self) (ActionStart a i)
       (snd (state_before stops self sequence w i)))
  = (false, w_failed) ->
  fst (fst (execute_sequence stops self sequence w)) = false
  /\ (forall b,
         actions sequence !! S i = Some b ->
         let w_b :=
           notify (_on_action_start self) (ActionStart b (S i))
             (notify (_on_action_complete self) (ActionComplete a i)
                w_failed) in
         snd (state_before stops self sequence w (S (S i)))
         = notify (_on_action_complete self) (ActionComplete b (S i))
             (snd (execute_action self b w_b))
         /\ exists rest,
             log (snd (execute_sequence stops self sequence w))
             = log (snd (state_before stops self sequence w (S (S i))))
                 ++ rest)
  /\ (forall k,
         first_stop stops k ->
         (S k < length (actions sequence))%nat ->
         execute_sequence stops self sequence w
         = (false, set_running self false,
            notify (_on_sequence_complete self) SequenceComplete
              (snd (state_before stops self sequence w (S k))))).
Proof.
  intros Ha Hstops Hfail.
  assert (Hlt : forall j, (j < i)%nat -> stops j = false)
    by (intros j Hj; apply Hstops; lia).
  assert (Hstep :
    state_before stops self sequence w (S i)
    = (false, set_running self true,
       notify (_on_action_complete self) (ActionComplete a i) w_failed)).
  { rewrite (step_at stops self sequence w i a Ha Hlt).
    destruct (state_before stops self sequence w i) as [[s e] w_i].
    simpl in Hfail. cbv zeta. rewrite Hfail, (Hstops i) by lia.
    reflexivity. }
  split; [|split].
  - rewrite (run_from stops self sequence w (S i)), Hstep.
    pose proof (loop_failed stops (drop (S i) (actions sequence)) (S i)
                  (set_running self true)
                  (notify (_on_action_complete self) (ActionComplete a i)
                     w_failed)) as Hf.
    destruct (loop stops (S i) _ _ false _) as [[s' e'] w'].
    exact Hf.
  - intros b Hb. split; [|apply run_extends].
    rewrite (step_at stops self sequence w (S i) b Hb)
      by (intros j Hj; apply Hstops; lia).
    rewrite Hstep. reflexivity.
  - intros k Hk Hlen. apply stop_ends_run; assumption.
Qed.

(** What a successful [execute_action] has logged: external calls. *)
Lemma execute_action_success_adds self (action : Action) (w w' : World) :
  execute_action self action w = (true, w') ->
  exists delta, log w' = log w ++ delta /\ Forall is_call delta.
Proof.
  unfold Executor.execute_action.
  destruct (negb (truthy (enabled action))).
  - intros [= <-]. exists []. rewrite app_nil_r. auto.
  - destruct (dispatch_adds action w) as (d & H & F).
    destruct (dispatch repr_other driver_raises action w) as [[u|x] w1];
      simpl in *; [|discriminate].
    intros [= <-]. exists d. auto.
Qed.

(** C6. A sequence of three actions, the middle one disabled, the
    other two enabled and successful, in a run during which
    [stop()] is not called: the three actions get their start and
    completion notifications in order; the disabled one's
    completion follows its start at once, with no external call in
    between; all that the two others add are their external calls;
    and the run returns success. *)
Theorem disabled_action_completes_at_once
    stops self nm (a0 a1 a2 : Action) (w wa wc : World) :
  (forall j, stops j = false) ->
  _on_action_start self = true ->
  _on_action_complete self = true ->
  truthy (enabled a0) = true ->
  truthy (enabled a1) = false ->
  truthy (enabled a2) = true ->
  execute_action self a0 (record (Notified (ActionStart a0 0)) w)
  = (true, wa) ->
  execute_action self a2
    (record (Notified (ActionStart a2 2))
       (record (Notified (ActionComplete a1 1))
          (record (Notified (ActionStart a1 1))
             (record (Notified (ActionComplete a0 0)) wa))))
  = (true, wc) ->
  execute_sequence stops self (mkActionSequence nm [a0; a1; a2]) w
  = (true, set_running self false,
     notify (_on_sequence_complete self) SequenceComplete
       (record (Notified (ActionComplete a2 2)) wc))
  /\ exists calls0 calls2,
      Forall is_call calls0 /\ Forall is_call calls2
      /\ log wc
         = log w ++ [Notified (ActionStart a0 0)] ++ calls0
             ++ [Notified (ActionComplete a0 0);
                 Notified (ActionStart a1 1);
                 Notified (ActionComplete a1 1);
                 Notified (ActionStart a2 2)]
             ++ calls2.
Proof.
  intros Hstops Hstart Hcomplete He0 He1 He2 H0 H2. split.
  - set (sequence := mkActionSequence nm [a0; a1; a2]).
    rewrite (run_from stops self sequence w 3).
    rewrite (step_at stops self sequence w 2 a2 eq_refl)
      by (intros; apply Hstops).
    rewrite (step_at stops self sequence w 1 a1 eq_refl)
      by (intros; apply Hstops).
    rewrite (step_at stops self sequence w 0 a0 eq_refl)
      by (intros; apply Hstops).
    unfold Notions.state_before at 1. subst sequence.
    cbn [actions firstn skipn Executor.loop].
    rewrite Hstart, Hcomplete, !Hstops. cbn [notify].
    rewrite H0. cbn [fst snd negb].
    rewrite (execute_action_disabled self a1 _ He1). cbn [fst snd negb].
    rewrite H2. reflexivity.
  - apply execute_action_success_adds in H0, H2.
    destruct H0 as (d0 & L0 & F0). destruct H2 as (d2 & L2 & F2).
    exists d0, d2. split; [exact F0|]. split; [exact F2|].
    rewrite L2. simpl. rewrite L0. simpl.
    rewrite <- !app_assoc. reflexivity.
Qed.

(** *** Text that is not ASCII *)

Lemma any_above_127_chars (text : pystr) :
  Exists (fun c => (127 < c)%N) text ->
  any_above_127 (map (fun c => PStr [c]) text) = Ok true.
Proof.
  induction 1 as [c text Hc | c text _ IH]; simpl.
  - apply N.ltb_lt in Hc. rewrite Hc. reflexivity.
  - rewrite IH. destruct (N.ltb 127 c); reflexivity.
Qed.

(** C8. A [TypeText] action whose text has a character above 127
    is delivered by [type_unicode]: the clipboard is read first,
    every external call after that is a copy, a paste keystroke or
    a sleep (never [typewrite]), the last call copies back what was
    read, and when the action is over the clipboard holds what it
    held before, whether the delivery returned or raised, a failed
    paste keystroke included. After the calls comes at most the
    error notification. The calls in between are exactly those of
    the delivery: the text copied and a paste keystroke, or, with an
    interval above 0, each character copied, pasted and followed by
    a sleep, in order up to the first call that the driver fails;
    a copy and a paste keystroke are made in any case, the action
    succeeds exactly when no call failed, and the failure is what is
    reported. Only an interval that does not compare with 0 ends the
    delivery before its first copy, with that error reported. *)
Theorem non_ascii_text_keeps_clipboard
    self (action : Action) (d : list (pystr * pyval)) (text : pystr)
    (w : World) :
  action_type action = KEYBOARD_TYPE ->
  truthy (enabled action) = true ->
  params action = PDict d ->
  lookup d (py "text") = Some (PStr text) ->
  Exists (fun c => (127 < c)%N) text ->
  clipboard (snd (execute_action self action w)) = clipboard w
  /\ exists delta tail,
      log (snd (execute_action self action w))
      = log w ++ Called ClipboardPaste :: delta
          ++ [Called (ClipboardCopy (PStr (clipboard w)))] ++ tail
      /\ Forall clipboard_path delta
      /\ (tail = [] \/ exists x, tail = [Notified (ActionError x action)])
      /\ match gt_zero (interval_of d) with
         | Ok paced =>
             let tried :=
               attempted driver_raises (log w ++ [Called ClipboardPaste])
                 (planned paced text (interval_of d)) in
             delta = fst tried
             /\ fst (execute_action self action w) = negb (snd tried)
             /\ tail
                = (if (snd tried && _on_error self)%bool
                   then [Notified (ActionError DriverError action)]
                   else [])
             /\ exists v rest,
                 delta
                 = Called (ClipboardCopy v) :: Called PasteKeystroke :: rest
         | Raise e =>
             delta = []
             /\ fst (execute_action self action w) = false
             /\ tail
                = (if _on_error self
                   then [Notified (ActionError e action)] else [])
         end.
Proof.
  intros Hkind Henabled Hparams Htext Hchar.
  assert (Hnonempty : text <> []) by (intros ->; inversion Hchar).
  set (interval := interval_of d).
  set (w0 := record (Called ClipboardPaste) w).
  set (body := paste_text repr_other driver_raises (PStr text) interval w0).
  set (after :=
         {| clipboard := clipboard w;
            log := log (snd body)
                     ++ [Called (ClipboardCopy (PStr (clipboard w)))] |}).
  assert (Hexec : execute_action self action w
                  = match fst body with
                    | Ok _ => (true, after)
                    | Raise e =>
                        (false,
                         notify (_on_error self) (ActionError e action) after)
                    end).
  { unfold Executor.execute_action. rewrite Henabled. cbn [negb].
    assert (Hd : dispatch repr_other driver_raises action w
                 = type_unicode repr_other driver_raises (PStr text)
                     interval w).
    { unfold dispatch. rewrite Hkind, Hparams. unfold seq, lift. simpl.
      rewrite Htext. simpl. rewrite (any_above_127_chars text Hchar).
      reflexivity. }
    rewrite Hd, type_unicode_unfold, try_finally_copy.
    fold w0. fold body. fold after. reflexivity. }
  rewrite Hexec.
  pose proof (paste_text_attempts text interval w0) as Hbody.
  fold body in Hbody.
  destruct (gt_zero interval) as [paced|e].
  - destruct Hbody as [Hresult Hlog].
    change (log w0) with (log w ++ [Called ClipboardPaste]) in Hresult, Hlog.
    cbv zeta.
    set (tried := attempted driver_raises (log w ++ [Called ClipboardPaste])
                    (planned paced text interval)) in *.
    assert (Hpath : Forall clipboard_path (fst tried))
      by apply attempted_Forall, planned_clipboard_path.
    assert (Hstart : exists v rest,
               fst tried
               = Called (ClipboardCopy v) :: Called PasteKeystroke :: rest)
      by (apply attempted_starts; exact Hnonempty).
    rewrite Hresult. destruct (snd tried).
    + cbn [fst snd]. rewrite notify_clipboard. split; [reflexivity|].
      exists (fst tried),
        (if _on_error self
         then [Notified (ActionError DriverError action)] else []).
      rewrite notify_log. subst after. cbn [log]. rewrite Hlog.
      repeat match goal with |- _ /\ _ => split end; auto.
      * rewrite <- !app_assoc. reflexivity.
      * destruct (_on_error self); eauto.
    + cbn [fst snd]. split; [reflexivity|].
      exists (fst tried), [].
      subst after. cbn [log]. rewrite Hlog.
      repeat match goal with |- _ /\ _ => split end; auto.
      rewrite <- !app_assoc. reflexivity.
  - rewrite Hbody. cbn [fst snd]. rewrite notify_clipboard.
    split; [reflexivity|].
    exists [],
      (if _on_error self then [Notified (ActionError e action)] else []).
    rewrite notify_log. subst after. rewrite Hbody. cbn [log snd].
    repeat match goal with |- _ /\ _ => split end; auto.
    + subst w0. cbn [log record]. rewrite <- !app_assoc. reflexivity.
    + destruct (_on_error self); eauto.
Qed.
End Outside.

(** *** Sample runs *)

Lemma disabled_action_completes_at_once_witness :
  execute_sequence no_repr never_raises never_stopped listening three_steps
    kept_world
  = (true, set_running listening false,
     mkWorld (py "kept")
       [started (press "a1") 0; press_call; completed (press "a1") 0;
        started (disabled (press "a2")) 1;
        completed (disabled (press "a2")) 1;
        started (press "a3") 2; press_call; completed (press "a3") 2;
        Notified SequenceComplete]).
Proof.
  refine (proj1 (disabled_action_completes_at_once no_repr never_raises
                   never_stopped listening (PStr (py "demo"))
                   (press "a1") (disabled (press "a2")) (press "a3")
                   kept_world
                   (mkWorld (py "kept") [started (press "a1") 0; press_call])
                   (mkWorld (py "kept")
                      [started (press "a1") 0; press_call;
                       completed (press "a1") 0;
                       started (disabled (press "a2")) 1;
                       completed (disabled (press "a2")) 1;
                       started (press "a3") 2; press_call])
                   _ _ _ _ _ _ _ _));
    intros; reflexivity.
Defined.

Lemma stop_between_steps_witness :
  exists self' w',
    execute_sequence no_repr never_raises stopped_at_first listening
      three_enabled kept_world
    = (false, self', w')
    /\ _is_running self' = false
    /\ (forall a j,
           Notified (ActionStart a j) ∈ since kept_world w' -> (j <= 0)%nat)
    /\ (forall a, actions three_enabled !! 0%nat = Some a ->
                  Notified (ActionStart a 0) ∈ since kept_world w')
    /\ List.filter is_sequence_complete (since kept_world w')
       = [Notified SequenceComplete]
    /\ last (since kept_world w') = Some (Notified SequenceComplete).
Proof.
  apply (stop_between_steps no_repr never_raises stopped_at_first listening
           three_enabled kept_world 0).
  - split; [reflexivity | intros j Hj; lia].
  - simpl. lia.
  - reflexivity.
  - reflexivity.
Defined.

(** C7 fails as stated for the last index: [stop()] called during
    the only step of a one-action sequence, after the action has
    started, and the run returns success. *)
Lemma stop_during_last_step_counterexample :
  first_stop always_stopped 0
  /\ actions one_step !! 0%nat = Some (press "a1")
  /\ execute_sequence no_repr never_raises always_stopped listening one_step
       kept_world
     = (true, set_running listening false,
        mkWorld (py "kept")
          [started (press "a1") 0; press_call; completed (press "a1") 0;
           Notified SequenceComplete]).
Proof.
  split; [split; [reflexivity | intros j Hj; lia]|].
  split; reflexivity.
Qed.

Lemma non_ascii_text_keeps_clipboard_witness :
  clipboard (snd (execute_action no_repr paste_raises listening type_hello
                    kept_world))
  = clipboard kept_world
  /\ exists delta tail,
      log (snd (execute_action no_repr paste_raises listening type_hello
                  kept_world))
      = log kept_world ++ Called ClipboardPaste :: delta
          ++ [Called (ClipboardCopy (PStr (clipboard kept_world)))] ++ tail
      /\ Forall clipboard_path delta
      /\ (tail = [] \/ exists x, tail = [Notified (ActionError x type_hello)])
      /\ delta
         = [Called (ClipboardCopy (PStr [104; 233; 108; 108; 111]%N));
            Called PasteKeystroke]
      /\ fst (execute_action no_repr paste_raises listening type_hello
                kept_world)
         = false
      /\ tail = [Notified (ActionError DriverError type_hello)]
      /\ exists v rest,
          delta = Called (ClipboardCopy v) :: Called PasteKeystroke :: rest.
Proof.
  assert (Hchar : Exists (fun c => (127 < c)%N) [104; 233; 108; 108; 111]%N)
    by (apply Exists_cons_tl, Exists_cons_hd; reflexivity).
  exact (non_ascii_text_keeps_clipboard no_repr paste_raises listening
           type_hello
           [(py "text", PStr [104; 233; 108; 108; 111]%N);
            (py "interval", PFloat (S754_zero false))]
           [104; 233; 108; 108; 111]%N kept_world
           eq_refl eq_refl eq_refl eq_refl Hchar).
Defined.

(** The paced delivery at work: each character is copied, pasted and
    followed by a sleep, and the clipboard gets its text back. *)
Lemma paced_delivery_sample :
  execute_action no_repr never_raises listening
    (mkAction KEYBOARD_TYPE
       (PDict [(py "text", PStr [233; 33]%N); (py "interval", float_0_5)])
       (PStr (py "greet")) (PStr (py "t2")) (PBool true))
    kept_world
  = (true,
     mkWorld (py "kept")
       [Called ClipboardPaste;
        Called (ClipboardCopy (PStr [233%N])); Called PasteKeystroke;
        Called (Sleep float_0_5);
        Called (ClipboardCopy (PStr [33%N])); Called PasteKeystroke;
        Called (Sleep float_0_5);
        Called (ClipboardCopy (PStr (py "kept")))]).
Proof. reflexivity. Qed.

Lemma failure_continues_stop_ends_witness :
  fst (fst (execute_sequence no_repr paste_raises never_stopped listening
              hello_then_press kept_world))
  = false
  /\ (forall b,
         actions hello_then_press !! 1%nat = Some b ->
         let w_b :=
           notify (_on_action_start listening) (ActionStart b 1)
             (notify (_on_action_complete listening)
                (ActionComplete type_hello 0) hello_failed) in
         snd (state_before no_repr paste_raises never_stopped listening
                hello_then_press kept_world 2)
         = notify (_on_action_complete listening) (ActionComplete b 1)
             (snd (execute_action no_repr paste_raises listening b w_b))
         /\ exists rest,
             log (snd (execute_sequence no_repr paste_raises never_stopped
                         listening hello_then_press kept_world))
             = log (snd (state_before no_repr paste_raises never_stopped
                           listening hello_then_press kept_world 2))
                 ++ rest)
  /\ (forall k,
         first_stop never_stopped k ->
         (S k < length (actions hello_then_press))%nat ->
         execute_sequence no_repr paste_raises never_stopped listening
           hello_then_press kept_world
         = (false, set_running listening false,
            notify (_on_sequence_complete listening) SequenceComplete
              (snd (state_before no_repr paste_raises never_stopped
                      listening hello_then_press kept_world (S k))))).
Proof.
  apply (failure_continues_stop_ends no_repr paste_raises never_stopped
           listening hello_then_press kept_world 0 type_hello hello_failed).
  - reflexivity.
  - intros j Hj. reflexivity.
  - reflexivity.
Defined.

End ExecutorFacts.

(** ** More on the countdown: no time, cancelling, pausing, the clock *)
Module SchedulerMore.
Import Scheduler Notions SchedulerFacts.

(** [start] with no time to count: the complete callback is called at
    once, by [start] itself and before it returns, with no tick
    before it; [start] leaves the scheduler not running, with the
    count it was given (also a negative one), and arms no timer.
    Nothing is delivered afterwards, and the run ends idle. *)
Theorem start_without_time
    (self : ShutdownScheduler) (seconds : Z) (fuel : nat) :
  seconds <= 0 ->
  (1 <= fuel)%nat ->
  snd (start self seconds) = complete_step self
  /\ _is_running (fst (start self seconds)) = false
  /\ _remaining_seconds (fst (start self seconds)) = seconds
  /\ (_is_running self = true ->
      _countdown_timer (fst (start self seconds)) = false)
  /\ exists final rest,
      countdown fuel self seconds = Some (final, complete_step self :: rest)
      /\ Forall (fun step => step = []) rest
      /\ _is_running final = false
      /\ _countdown_timer final = false
      /\ _remaining_seconds final = seconds.
Proof.
  intros Hs Hfuel. destruct fuel as [|fuel]; [lia|].
  destruct self as [timer r running t c wn ws].
  unfold countdown, start, _start_countdown_tick, complete_step.
  destruct running, timer; cbn;
    (destruct (Z.leb_spec seconds 0); [|lia]); cbn;
    try (destruct fuel; cbn);
    repeat match goal with |- _ /\ _ => split end;
    try reflexivity; try discriminate;
    eexists _, _; (split; [reflexivity|]); cbn; auto.
Qed.

Lemma start_without_time_witness :
  snd (start subscribed 0) = complete_step subscribed
  /\ _is_running (fst (start subscribed 0)) = false
  /\ _remaining_seconds (fst (start subscribed 0)) = 0
  /\ (_is_running subscribed = true ->
      _countdown_timer (fst (start subscribed 0)) = false)
  /\ exists final rest,
      countdown 1 subscribed 0 = Some (final, complete_step subscribed :: rest)
      /\ Forall (fun step => step = []) rest
      /\ _is_running final = false
      /\ _countdown_timer final = false
      /\ _remaining_seconds final = 0.
Proof. apply (start_without_time subscribed 0 1); lia. Defined.

(** [n] firings while more than [n] seconds remain: a tick step each. *)
Lemma fire_times_ticks (n : nat) :
  forall self (r : Z),
    Z.of_nat n <= r ->
    fire_times n (with_state self true r true)
    = (with_state self true (r - Z.of_nat n) true,
       map (tick_step self) (down_from r n)).
Proof.
  induction n as [|n IH]; intros self r Hr.
  - cbn [fire_times down_from map].
    replace (r - Z.of_nat 0) with r by lia. reflexivity.
  - cbn [fire_times _countdown_timer with_state].
    rewrite fire_tick by lia. rewrite IH by lia.
    replace (r - Z.of_nat (S n)) with (r - 1 - Z.of_nat n) by lia.
    reflexivity.
Qed.

Lemma interrupted_steps (self : ShutdownScheduler) (seconds : Z) (n : nat) :
  Z.of_nat n < seconds ->
  interrupted self seconds n
  = (with_state self true (seconds - 1 - Z.of_nat n) true,
     map (tick_step self) (down_from seconds (S n))).
Proof.
  intros Hn. unfold interrupted.
  rewrite start_tick by lia. rewrite fire_times_ticks by lia.
  reflexivity.
Qed.

(** [cancel()] during a countdown, after the timer has fired [n]
    times: what was delivered before it are the ticks for [seconds,
    ..., seconds - n] (with their warning, if any); the count is reset
    to 0 and the scheduler idle, a timer that still fires finds
    nothing to do, and nothing is delivered any more: no tick, no
    warning, no completion. A second [cancel()] changes nothing. *)
Theorem cancel_ends_notifications
    (self : ShutdownScheduler) (seconds : Z) (n fuel : nat) :
  Z.of_nat n < seconds ->
  let reached := fst (interrupted self seconds n) in
  snd (interrupted self seconds n)
  = map (tick_step self) (down_from seconds (S n))
  /\ _remaining_seconds (cancel reached) = 0
  /\ _is_running (cancel reached) = false
  /\ _start_countdown_tick (cancel reached) = (cancel reached, [])
  /\ run fuel (cancel reached) = Some (cancel reached, [])
  /\ cancel (cancel reached) = cancel reached.
Proof.
  intros Hn. cbv zeta. rewrite interrupted_steps by exact Hn.
  cbn [fst snd]. repeat split. destruct fuel; reflexivity.
Qed.

Lemma cancel_ends_notifications_witness :
  snd (interrupted subscribed 3 1) = [[Tick 3]; [Tick 2]]
  /\ _remaining_seconds (cancel (fst (interrupted subscribed 3 1))) = 0
  /\ _is_running (cancel (fst (interrupted subscribed 3 1))) = false
  /\ _start_countdown_tick (cancel (fst (interrupted subscribed 3 1)))
     = (cancel (fst (interrupted subscribed 3 1)), [])
  /\ run 5 (cancel (fst (interrupted subscribed 3 1)))
     = Some (cancel (fst (interrupted subscribed 3 1)), [])
  /\ cancel (cancel (fst (interrupted subscribed 3 1)))
     = cancel (fst (interrupted subscribed 3 1)).
Proof. apply (cancel_ends_notifications subscribed 3 1 5). lia. Defined.

(** [pause()] while time remains, then [resume()]: the count is kept,
    [resume] delivers the next tick itself, and the countdown goes on
    to its end. Together with what came before the pause, the steps
    are those of the countdown left alone: no tick is lost or
    repeated, and completion comes once. *)
Theorem pause_resume_keeps_countdown
    (self : ShutdownScheduler) (seconds : Z) (n fuel : nat) :
  Z.of_nat n + 1 < seconds ->
  (Z.to_nat seconds <= fuel)%nat ->
  let reached := fst (interrupted self seconds n) in
  _remaining_seconds (pause reached) = _remaining_seconds reached
  /\ _is_running (pause reached) = false
  /\ exists final rest,
      resumed fuel reached = Some (final, rest)
      /\ countdown fuel self seconds
         = Some (final, snd (interrupted self seconds n) ++ rest).
Proof.
  intros Hn Hfuel. cbv zeta. rewrite interrupted_steps by lia.
  cbn [fst snd]. split; [reflexivity|]. split; [reflexivity|].
  set (r := seconds - 1 - Z.of_nat n).
  assert (Hr : 0 < r) by (unfold r; lia).
  unfold resumed, resume, pause. cbn.
  destruct (Z.ltb_spec 0 r); [|lia]. cbn.
  unfold _start_countdown_tick. cbn.
  destruct (Z.leb_spec r 0); [lia|]. cbn.
  pose (m := Z.to_nat (r - 1)).
  replace (r - 1) with (Z.of_nat m) by lia.
  change (mkScheduler true (Z.of_nat m) true (_on_tick_callback self)
            (_on_complete_callback self) (_on_warning_callback self)
            (_warning_seconds self))
    with (with_state self true (Z.of_nat m) true).
  rewrite run_to_completion by (unfold r in *; lia).
  eexists _, _. split; [reflexivity|].
  rewrite countdown_steps by lia. f_equal. f_equal.
  replace (Z.to_nat seconds) with (S n + S m)%nat by (unfold r in *; lia).
  rewrite down_from_app, map_app, <- app_assoc. f_equal.
  replace (seconds - Z.of_nat (S n)) with r by (unfold r; lia).
  cbn [down_from map app]. unfold tick_step at 3. cbn.
  replace (r - 1) with (Z.of_nat m) by lia. reflexivity.
Qed.

Lemma pause_resume_keeps_countdown_witness :
  _remaining_seconds (pause (fst (interrupted subscribed 3 0)))
  = _remaining_seconds (fst (interrupted subscribed 3 0))
  /\ _is_running (pause (fst (interrupted subscribed 3 0))) = false
  /\ exists final rest,
      resumed 3 (fst (interrupted subscribed 3 0)) = Some (final, rest)
      /\ countdown 3 subscribed 3
         = Some (final, snd (interrupted subscribed 3 0) ++ rest).
Proof.
  apply (pause_resume_keeps_countdown subscribed 3 0 3); [lia | simpl; lia].
Defined.

(** [resume()] does nothing on a running scheduler, whatever its
    count, and nothing when no time remains; in every other state
    (paused with time left) it sets the scheduler running and runs
    the next tick itself. So a running countdown is not disturbed by
    [resume], and a countdown paused after its last tick (the count
    is 0, the completing step still to come) stays as [pause] left
    it: every tick was delivered, [resume] calls no callback and
    arms no timer, and the complete callback is never called. *)
Theorem resume_without_time
    (self : ShutdownScheduler) (seconds : Z) (fuel : nat) :
  1 <= seconds ->
  let reached := fst (interrupted self seconds (Z.to_nat (seconds - 1))) in
  snd (interrupted self seconds (Z.to_nat (seconds - 1)))
  = map (tick_step self) (down_from seconds (Z.to_nat seconds))
  /\ _remaining_seconds reached = 0
  /\ _is_running reached = true
  /\ resume (pause reached) = (pause reached, [])
  /\ resumed fuel reached = Some (pause reached, [[]])
  /\ resume reached = (reached, [])
  /\ (forall s : ShutdownScheduler,
        _is_running s = true \/ _remaining_seconds s <= 0 ->
        resume s = (s, []))
  /\ (forall s : ShutdownScheduler,
        _is_running s = false ->
        0 < _remaining_seconds s ->
        resume s
        = (with_state s true (_remaining_seconds s - 1) true,
           tick_step s (_remaining_seconds s)))
  /\ (forall n : nat,
        Z.of_nat n < seconds ->
        _is_running (fst (interrupted self seconds n)) = true
        /\ resume (fst (interrupted self seconds n))
           = (fst (interrupted self seconds n), [])).
Proof.
  intros Hs. cbv zeta.
  assert (Hidle : forall s : ShutdownScheduler,
             _is_running s = true \/ _remaining_seconds s <= 0 ->
             resume s = (s, [])).
  { intros s [Hrun | Hcount]; unfold resume.
    - rewrite Hrun, andb_false_r. reflexivity.
    - destruct (Z.ltb_spec 0 (_remaining_seconds s)); [lia|]. reflexivity. }
  rewrite interrupted_steps by lia.
  replace (S (Z.to_nat (seconds - 1))) with (Z.to_nat seconds) by lia.
  replace (seconds - 1 - Z.of_nat (Z.to_nat (seconds - 1))) with 0 by lia.
  cbn [fst snd].
  repeat match goal with |- _ /\ _ => split end;
    try reflexivity; try exact Hidle.
  - destruct fuel; reflexivity.
  - intros s Hrun Hcount. unfold resume, _start_countdown_tick, tick_step.
    rewrite Hrun. destruct s as [timer r running t c wn ws]. cbn in *.
    destruct (Z.ltb_spec 0 r); [|lia]. cbn.
    destruct (Z.leb_spec r 0); [lia|]. reflexivity.
  - intros n Hn. rewrite interrupted_steps by lia. cbn [fst].
    split; [reflexivity | apply Hidle; left; reflexivity].
Qed.

Lemma resume_without_time_witness :
  snd (interrupted subscribed 2 (Z.to_nat (2 - 1))) = [[Tick 2]; [Tick 1]]
  /\ _remaining_seconds (fst (interrupted subscribed 2 (Z.to_nat (2 - 1)))) = 0
  /\ _is_running (fst (interrupted subscribed 2 (Z.to_nat (2 - 1)))) = true
  /\ resume (pause (fst (interrupted subscribed 2 (Z.to_nat (2 - 1)))))
     = (pause (fst (interrupted subscribed 2 (Z.to_nat (2 - 1)))), [])
  /\ resumed 4 (fst (interrupted subscribed 2 (Z.to_nat (2 - 1))))
     = Some (pause (fst (interrupted subscribed 2 (Z.to_nat (2 - 1)))), [[]])
  /\ resume (fst (interrupted subscribed 2 (Z.to_nat (2 - 1))))
     = (fst (interrupted subscribed 2 (Z.to_nat (2 - 1))), [])
  /\ (forall s : ShutdownScheduler,
        _is_running s = true \/ _remaining_seconds s <= 0 ->
        resume s = (s, []))
  /\ (forall s : ShutdownScheduler,
        _is_running s = false ->
        0 < _remaining_seconds s ->
        resume s
        = (with_state s true (_remaining_seconds s - 1) true,
           tick_step s (_remaining_seconds s)))
  /\ (forall n : nat,
        Z.of_nat n < 2 ->
        _is_running (fst (interrupted subscribed 2 n)) = true
        /\ resume (fst (interrupted subscribed 2 n))
           = (fst (interrupted subscribed 2 n), [])).
Proof. apply (resume_without_time subscribed 2 4). lia. Defined.

(** *** The clock *)

(** [format_time] shows hours, minutes and seconds that make up its
    argument again, the minutes and the seconds between 0 and 59: for
    every integer, a negative one included (the hours are then
    negative). *)
Theorem format_time_fields (seconds : Z) :
  exists h m s,
    0 <= m < 60 /\ 0 <= s < 60
    /\ calculate_seconds h m s = seconds
    /\ format_time seconds
       = two_digits h ++ Py.py ":" ++ two_digits m ++ Py.py ":"
         ++ two_digits s.
Proof.
  exists (seconds / 3600), ((seconds mod 3600) / 60), (seconds mod 60).
  unfold calculate_seconds, format_time.
  repeat split; try (Z.div_mod_to_equations; lia).
Qed.

(** [format_time] undoes [calculate_seconds]: it shows the hours, the
    minutes and the seconds that were put together, when the minutes
    and the seconds are between 0 and 59. *)
Theorem format_time_calculate_seconds (h m s : Z) :
  0 <= m < 60 ->
  0 <= s < 60 ->
  format_time (calculate_seconds h m s)
  = two_digits h ++ Py.py ":" ++ two_digits m ++ Py.py ":" ++ two_digits s.
Proof.
  intros Hm Hs. unfold format_time, calculate_seconds.
  replace ((h * 3600 + m * 60 + s) / 3600) with h
    by (Z.div_mod_to_equations; lia).
  replace (((h * 3600 + m * 60 + s) mod 3600) / 60) with m
    by (Z.div_mod_to_equations; lia).
  replace ((h * 3600 + m * 60 + s) mod 60) with s
    by (Z.div_mod_to_equations; lia).
  reflexivity.
Qed.

Lemma format_time_calculate_seconds_witness :
  format_time (calculate_seconds 1 1 1) = Py.py "01:01:01".
Proof. apply (format_time_calculate_seconds 1 1 1); lia. Defined.

Lemma two_digits_below_100 (v : Z) :
  0 <= v < 100 -> length (two_digits v) = 2%nat.
Proof.
  intros Hv.
  assert (Hall :
    forallb (fun n => Nat.eqb (length (two_digits (Z.of_nat n))) 2)
      (List.seq 0 100) = true) by (vm_compute; reflexivity).
  rewrite forallb_forall in Hall.
  specialize (Hall (Z.to_nat v)).
  rewrite Z2Nat.id in Hall by lia.
  apply Nat.eqb_eq, Hall, in_seq. lia.
Qed.

(** Below a hundred hours [format_time] gives eight characters, the
    third and the sixth a colon: [HH:MM:SS]. *)
Theorem format_time_shape (seconds : Z) :
  0 <= seconds < 360000 ->
  length (format_time seconds) = 8%nat
  /\ format_time seconds !! 2%nat = Some 58%N
  /\ format_time seconds !! 5%nat = Some 58%N.
Proof.
  intros Hs. unfold format_time.
  assert (Hh : length (two_digits (seconds / 3600)) = 2%nat)
    by (apply two_digits_below_100; Z.div_mod_to_equations; lia).
  assert (Hm : length (two_digits ((seconds mod 3600) / 60)) = 2%nat)
    by (apply two_digits_below_100; Z.div_mod_to_equations; lia).
  assert (Hc : length (two_digits (seconds mod 60)) = 2%nat)
    by (apply two_digits_below_100; Z.div_mod_to_equations; lia).
  destruct (two_digits (seconds / 3600)) as [|h1 [|h2 [|]]]; try discriminate.
  destruct (two_digits ((seconds mod 3600) / 60)) as [|m1 [|m2 [|]]];
    try discriminate.
  destruct (two_digits (seconds mod 60)) as [|s1 [|s2 [|]]]; try discriminate.
  repeat split.
Qed.

Lemma format_time_shape_witness :
  length (format_time 86399) = 8%nat
  /\ format_time 86399 !! 2%nat = Some 58%N
  /\ format_time 86399 !! 5%nat = Some 58%N.
Proof. apply (format_time_shape 86399). lia. Defined.

(** *** The threshold, and starting again *)

(** With a threshold that is not among [1, ..., seconds] (zero, a
    negative number, or more than the time counted) a countdown left
    to run delivers no warning at all. *)
Theorem warning_out_of_range
    (self : ShutdownScheduler) (seconds w : Z) (fuel : nat) :
  1 <= seconds ->
  w <= 0 \/ seconds < w ->
  (Z.to_nat seconds <= fuel)%nat ->
  exists final steps,
    countdown fuel (set_warning_seconds self w) seconds = Some (final, steps)
    /\ Forall no_warning steps.
Proof.
  intros Hs Hw Hfuel. eexists _, _.
  split; [apply countdown_steps; assumption|].
  apply Forall_app. split.
  - apply steps_no_warning, Forall_forall. intros v Hv.
    apply down_from_bounds in Hv. simpl. lia.
  - repeat constructor. apply complete_step_no_warning.
Qed.

Lemma warning_out_of_range_witness :
  exists final steps,
    countdown 2 (set_warning_seconds subscribed 30) 2 = Some (final, steps)
    /\ Forall no_warning steps.
Proof.
  apply (warning_out_of_range subscribed 2 30 2); [lia | lia | simpl; lia].
Defined.



End SchedulerMore.

(** ** More on the action model: reordering, lookup, construction *)
Module ActionModelMore.
Import Py ActionModel Notions ActionModelFacts.

(** *** Reordering *)

Lemma insert_at_lookup {A} (i : nat) (x : A) (l : list A) :
  (i <= length l)%nat -> list_insert_at i x l !! i = Some x.
Proof.
  intros Hi. unfold list_insert_at.
  apply list_lookup_middle. rewrite length_take. lia.
Qed.

Lemma delete_insert_at {A} (i : nat) (x : A) (l : list A) :
  (i <= length l)%nat -> delete i (list_insert_at i x l) = l.
Proof.
  intros Hi. unfold list_insert_at.
  replace i with (length (take i l)) at 1 by (rewrite length_take; lia).
  rewrite delete_middle. apply take_drop.
Qed.

Lemma insert_at_delete {A} (i : nat) (x : A) (l : list A) :
  l !! i = Some x -> list_insert_at i x (delete i l) = l.
Proof.
  intros Hx. unfold list_insert_at. rewrite delete_take_drop.
  assert (Hlen : length (take i l) = i).
  { rewrite length_take. apply lookup_lt_Some in Hx. lia. }
  rewrite take_app_length', drop_app_length' by (symmetry; exact Hlen).
  apply take_drop_middle. exact Hx.
Qed.

Lemma length_insert_at {A} (i : nat) (x : A) (l : list A) :
  length (list_insert_at i x l) = S (length l).
Proof.
  unfold list_insert_at. rewrite length_app. cbn [length].
  rewrite length_take, length_drop. lia.
Qed.

(** [move_action] with an index out of range, a negative one included,
    changes nothing. *)
Theorem move_action_out_of_range
    (self : ActionSequence) (from_index to_index : Z) :
  from_index < 0 \/ Z.of_nat (length (actions self)) <= from_index
  \/ to_index < 0 \/ Z.of_nat (length (actions self)) <= to_index ->
  move_action self from_index to_index = self.
Proof.
  intros H. unfold move_action.
  destruct (Z.leb_spec 0 from_index), (Z.leb_spec 0 to_index),
    (Z.ltb_spec from_index (Z.of_nat (length (actions self)))),
    (Z.ltb_spec to_index (Z.of_nat (length (actions self))));
    cbn; try reflexivity; lia.
Qed.

Lemma move_action_out_of_range_witness :
  move_action (demo_sequence [press "a1"; press "a2"]) (-1) 0
  = demo_sequence [press "a1"; press "a2"].
Proof.
  apply (move_action_out_of_range (demo_sequence [press "a1"; press "a2"])
           (-1) 0).
  left. lia.
Defined.

(** What [move_action] does with indices in range. *)
Lemma move_action_in_range (self : ActionSequence) (from_index to_index : Z)
    (a : Action) :
  0 <= from_index -> 0 <= to_index < Z.of_nat (length (actions self)) ->
  actions self !! Z.to_nat from_index = Some a ->
  move_action self from_index to_index
  = mkActionSequence (name self)
      (list_insert_at (Z.to_nat to_index) a
         (delete (Z.to_nat from_index) (actions self))).
Proof.
  intros Hf Ht Ha. unfold move_action. rewrite Ha.
  pose proof (lookup_lt_Some _ _ _ Ha) as Hlt.
  destruct (Z.leb_spec 0 from_index); [|lia].
  destruct (Z.leb_spec 0 to_index); [|lia].
  destruct (Z.ltb_spec from_index (Z.of_nat (length (actions self)))); [|lia].
  destruct (Z.ltb_spec to_index (Z.of_nat (length (actions self)))); [|lia].
  reflexivity.
Qed.

(** [move_action] with both indices in range: the action that was at
    [from_index] is at [to_index] afterwards, and the other actions
    are the same, in the same order (what is left without the moved
    action is the same list before and after); the name and the
    length are unchanged. *)
Theorem move_action_moves
    (self : ActionSequence) (from_index to_index : Z) :
  0 <= from_index < Z.of_nat (length (actions self)) ->
  0 <= to_index < Z.of_nat (length (actions self)) ->
  let moved := move_action self from_index to_index in
  name moved = name self
  /\ length (actions moved) = length (actions self)
  /\ actions moved !! Z.to_nat to_index = actions self !! Z.to_nat from_index
  /\ delete (Z.to_nat to_index) (actions moved)
     = delete (Z.to_nat from_index) (actions self).
Proof.
  intros Hf Ht. cbv zeta.
  destruct (lookup_lt_is_Some_2 (actions self) (Z.to_nat from_index))
    as [a Ha]; [lia|].
  rewrite (move_action_in_range self from_index to_index a) by (lia || auto).
  cbn [name actions].
  assert (Hlen : (Z.to_nat to_index
                  <= length (delete (Z.to_nat from_index) (actions self)))%nat).
  { rewrite length_delete by eauto. lia. }
  split; [reflexivity|]. split; [|split].
  - rewrite length_insert_at, length_delete by eauto. lia.
  - rewrite Ha. apply insert_at_lookup. exact Hlen.
  - apply delete_insert_at. exact Hlen.
Qed.

Lemma move_action_moves_witness :
  name (move_action three_enabled 0 2) = name three_enabled
  /\ length (actions (move_action three_enabled 0 2))
     = length (actions three_enabled)
  /\ actions (move_action three_enabled 0 2) !! Z.to_nat 2
     = actions three_enabled !! Z.to_nat 0
  /\ delete (Z.to_nat 2) (actions (move_action three_enabled 0 2))
     = delete (Z.to_nat 0) (actions three_enabled).
Proof. apply (move_action_moves three_enabled 0 2); simpl; lia. Defined.

(** Moving an action and moving it back restores the sequence. *)
Theorem move_action_back
    (self : ActionSequence) (from_index to_index : Z) :
  0 <= from_index < Z.of_nat (length (actions self)) ->
  0 <= to_index < Z.of_nat (length (actions self)) ->
  move_action (move_action self from_index to_index) to_index from_index
  = self.
Proof.
  intros Hf Ht.
  destruct (lookup_lt_is_Some_2 (actions self) (Z.to_nat from_index))
    as [a Ha]; [lia|].
  rewrite (move_action_in_range self from_index to_index a) by (lia || auto).
  assert (Hlen : (Z.to_nat to_index
                  <= length (delete (Z.to_nat from_index) (actions self)))%nat).
  { rewrite length_delete by eauto. lia. }
  rewrite (move_action_in_range _ to_index from_index a); cbn [name actions].
  - rewrite (delete_insert_at _ _ _ Hlen), (insert_at_delete _ _ _ Ha).
    destruct self; reflexivity.
  - lia.
  - rewrite length_insert_at, length_delete by eauto. lia.
  - apply insert_at_lookup. exact Hlen.
Qed.

Lemma move_action_back_witness :
  move_action (move_action three_enabled 0 2) 2 0 = three_enabled.
Proof. apply (move_action_back three_enabled 0 2); simpl; lia. Defined.

(** *** Lookup *)

Lemma get_action_in_first (l : list Action) (i : pystr) :
  match get_action_in l i with
  | Some a =>
      exists before after,
        l = before ++ a :: after
        /\ id a = PStr i
        /\ Forall (fun b => id b <> PStr i) before
  | None => Forall (fun b => id b <> PStr i) l
  end.
Proof.
  induction l as [|b l IH]; cbn [get_action_in]; [constructor|].
  destruct (eq_str (id b) i) eqn:Hb.
  - exists [], l. apply eq_str_true in Hb. auto.
  - apply eq_str_false in Hb.
    destruct (get_action_in l i) as [a|].
    + destruct IH as (before & after & -> & Ha & Hbefore).
      exists (b :: before), after. auto.
    + constructor; assumption.
Qed.

(** [get_action] returns the first action that has the identifier,
    and finds none only when no action has it. *)
Theorem get_action_first (self : ActionSequence) (action_id : pystr) :
  match get_action self action_id with
  | Some a =>
      exists before after,
        actions self = before ++ a :: after
        /\ id a = PStr action_id
        /\ Forall (fun b => id b <> PStr action_id) before
  | None => Forall (fun b => id b <> PStr action_id) (actions self)
  end.
Proof. apply get_action_in_first. Qed.

(** After [remove_action] the identifier is not found any more, and
    the lookup of any other identifier gives what it gave before. *)
Theorem get_action_after_remove (self : ActionSequence) (action_id : pystr) :
  get_action (remove_action self action_id) action_id = None
  /\ forall other,
      other <> action_id ->
      get_action (remove_action self action_id) other = get_action self other.
Proof.
  unfold get_action, remove_action. cbn [actions]. split.
  - induction (actions self) as [|b l IH]; [reflexivity|].
    cbn [List.filter]. destruct (eq_str (id b) action_id) eqn:Hb; cbn [negb].
    + exact IH.
    + cbn [get_action_in]. rewrite Hb. exact IH.
  - intros other Hother.
    induction (actions self) as [|b l IH]; [reflexivity|].
    cbn [List.filter get_action_in].
    destruct (eq_str (id b) action_id) eqn:Hb; cbn [negb].
    + apply eq_str_true in Hb.
      assert (Ho : eq_str (id b) other = false).
      { apply eq_str_false. rewrite Hb. congruence. }
      rewrite Ho. exact IH.
    + cbn [get_action_in]. rewrite IH. reflexivity.
Qed.

(** After [add_action] an identifier that was found is found as
    before (an action already in the sequence hides an added one with
    the same identifier); one that was not found gives the added
    action when that has it. *)
Theorem get_action_after_add
    (self : ActionSequence) (action : Action) (action_id : pystr) :
  get_action (add_action self action) action_id
  = match get_action self action_id with
    | Some found => Some found
    | None => if eq_str (id action) action_id then Some action else None
    end.
Proof.
  unfold get_action, add_action. cbn [actions].
  induction (actions self) as [|b l IH]; [reflexivity|].
  cbn [app get_action_in]. destruct (eq_str (id b) action_id); auto.
Qed.

(** *** Construction and loading *)

Lemma Action_new_fields repr_other t p d i e (a : Action) :
  Action_new repr_other t p d i e = Ok a ->
  action_type a = t /\ params a = p /\ id a = i /\ enabled a = e.
Proof.
  unfold Action_new. destruct (truthy d).
  - intros [= <-]. auto.
  - destruct (_generate_description _ _) as [g|x]; [|discriminate].
    intros [= <-]. auto.
Qed.

(** The constructor keeps a description that is not empty as it is
    given, and never raises then. Whenever it returns, the kind, the
    parameters, the identifier and the enabled flag are the ones
    given and the description is not empty; the same holds of the
    description after [update_description]. *)
Theorem constructor_description :
  (forall repr_other t p d i e,
      truthy d = true ->
      Action_new repr_other t p d i e = Ok (mkAction t p d i e))
  /\ (forall repr_other t p d i e a,
         Action_new repr_other t p d i e = Ok a ->
         action_type a = t /\ params a = p /\ id a = i /\ enabled a = e
         /\ truthy (description a) = true)
  /\ (forall repr_other a a',
         update_description repr_other a = Ok a' ->
         action_type a' = action_type a /\ params a' = params a
         /\ id a' = id a /\ enabled a' = enabled a
         /\ truthy (description a') = true).
Proof.
  split; [|split].
  - intros repr_other t p d i e Hd. unfold Action_new. rewrite Hd. reflexivity.
  - intros repr_other t p d i e a H.
    pose proof (Action_new_description _ _ _ _ _ _ _ H) as Hdesc.
    apply Action_new_fields in H. tauto.
  - intros repr_other a a' H. unfold update_description in H.
    destruct (_generate_description repr_other a) as [g|x] eqn:Hg;
      [|discriminate].
    injection H as <-. cbn. repeat split.
    exact (generated_description_nonempty _ _ _ Hg).
Qed.

(** [Action.from_dict] fills in what an entry leaves out. An entry
    that names a kind of the closed set and has a description that is
    not empty always loads, each field the entry's or its default: the
    drawn identifier, no parameters, enabled. An entry that names
    nothing but its kind loads too, with a generated description. *)
Theorem from_dict_fills_defaults :
  (forall repr_other uuid d t,
      lookup d (py "action_type") = Some (PStr (value t)) ->
      truthy (match lookup d (py "description") with
              | Some v => v
              | None => PStr []
              end) = true ->
      Action_from_dict repr_other uuid (PDict d)
      = Ok (mkAction t
              (match lookup d (py "params") with
               | Some v => v
               | None => PDict []
               end)
              (match lookup d (py "description") with
               | Some v => v
               | None => PStr []
               end)
              (match lookup d (py "id") with
               | Some v => v
               | None => PStr uuid
               end)
              (match lookup d (py "enabled") with
               | Some v => v
               | None => PBool true
               end)))
  /\ (forall repr_other uuid t,
         exists g,
           truthy (PStr g) = true
           /\ Action_from_dict repr_other uuid
                (PDict [(py "action_type", PStr (value t))])
              = Ok (mkAction t (PDict []) (PStr g) (PStr uuid) (PBool true))).
Proof.
  split.
  - intros repr_other uuid d t Hk Hd.
    unfold Action_from_dict. simpl. rewrite Hk. simpl.
    rewrite ActionType_call_value. simpl.
    unfold Action_new. rewrite Hd. reflexivity.
  - intros repr_other uuid t.
    destruct t; eexists; (split; [|reflexivity]); reflexivity.
Qed.

(** *** Generated descriptions *)

(** The description generated for a text action shows the text
    itself when it has at most 20 characters, and otherwise its first
    20 characters followed by three dots: never more than 23
    characters after the label. *)
Theorem text_description_is_cut repr_other (a : Action)
    (d : list (pystr * pyval)) (text : pystr) :
  action_type a = KEYBOARD_TYPE ->
  params a = PDict d ->
  lookup d (py "text") = Some (PStr text) ->
  exists shown,
    _generate_description repr_other a
    = Ok ([36755; 20837; 58; 32]%N ++ shown)
    /\ (length shown <= 23)%nat
    /\ ((length text <= 20)%nat -> shown = text)
    /\ ((20 < length text)%nat -> shown = take 20 text ++ py "...").
Proof.
  intros Hk Hp Ht. unfold _generate_description. rewrite Hk, Hp. simpl.
  rewrite Ht. simpl.
  destruct (Z.ltb_spec 20 (Z.of_nat (length text))).
  - exists (take 20 text ++ py "..."). simpl. repeat split.
    + rewrite length_app, length_take.
      change (length (py "...")) with 3%nat. lia.
    + lia.
  - exists text. simpl. repeat split; lia.
Qed.

Lemma text_description_is_cut_witness :
  exists shown,
    _generate_description no_repr type_hello
    = Ok ([36755; 20837; 58; 32]%N ++ shown)
    /\ (length shown <= 23)%nat
    /\ ((length [104; 233; 108; 108; 111]%N <= 20)%nat
        -> shown = [104; 233; 108; 108; 111]%N)
    /\ ((20 < length [104; 233; 108; 108; 111]%N)%nat
        -> shown = take 20 [104; 233; 108; 108; 111]%N ++ py "...").
Proof.
  apply (text_description_is_cut no_repr type_hello
           [(py "text", PStr [104; 233; 108; 108; 111]%N);
            (py "interval", PFloat (S754_zero false))]);
    reflexivity.
Defined.

(** Parameters that are not a dict make the generation of a
    description raise [AttributeError], whatever the kind; so the
    constructor raises when it is given such parameters and no
    description. *)
Theorem params_not_a_dict :
  (forall repr_other (a : Action),
      (forall d, params a <> PDict d) ->
      _generate_description repr_other a = Raise AttributeError)
  /\ (forall repr_other t p d i e,
         (forall x, p <> PDict x) ->
         truthy d = false ->
         Action_new repr_other t p d i e = Raise AttributeError).
Proof.
  assert (Hgen : forall repr_other (a : Action),
             (forall d, params a <> PDict d) ->
             _generate_description repr_other a = Raise AttributeError).
  { intros repr_other a Hp. unfold _generate_description, at_position.
    destruct (params a) as [| | | | | |d]; try (destruct (action_type a);
      reflexivity).
    destruct (Hp d). reflexivity. }
  split; [exact Hgen|].
  intros repr_other t p d i e Hp Hd. unfold Action_new. rewrite Hd.
  rewrite Hgen by exact Hp. reflexivity.
Qed.

End ActionModelMore.

(** ** More on the executor: the clipboard, plain text, whole runs *)
Module ExecutorMore.
Import Py ActionModel Executor Notions ExecutorFacts.



Section Outside.
Variable repr_other : pyval -> pystr.
Variable driver_raises : list event -> call -> bool.

Abbreviation dispatch := (Executor.dispatch repr_other driver_raises).
Abbreviation execute_action :=
  (Executor.execute_action repr_other driver_raises).
Abbreviation loop := (Executor.loop repr_other driver_raises).
Abbreviation execute_sequence :=
  (Executor.execute_sequence repr_other driver_raises).

(** *** The clipboard *)






(** *** Plain text *)

Lemma any_above_127_ascii (text : pystr) :
  Forall (fun c => (c <= 127)%N) text ->
  any_above_127 (map (fun c => PStr [c]) text) = Ok false.
Proof.
  induction 1 as [|c text Hc _ IH]; [reflexivity|].
  simpl. destruct (N.ltb_spec 127 c); [lia|]. exact IH.
Qed.

(** A [TypeText] action whose text has no character above 127 is
    typed: the one external call is [typewrite] with the text and the
    interval, the clipboard is neither read nor written, and the
    action succeeds exactly when that call does. *)
Theorem ascii_text_is_typed
    self (action : Action) (d : list (pystr * pyval)) (text : pystr)
    (w : World) :
  action_type action = KEYBOARD_TYPE ->
  truthy (enabled action) = true ->
  params action = PDict d ->
  lookup d (py "text") = Some (PStr text) ->
  Forall (fun c => (c <= 127)%N) text ->
  let typed :=
    Typewrite (PStr text)
      (match lookup d (py "interval") with
       | Some v => v
       | None => float_0_0
       end) in
  execute_action self action w
  = if driver_raises (log w) typed
    then (false,
          notify (_on_error self) (ActionError DriverError action)
            (record (Called typed) w))
    else (true, record (Called typed) w).
Proof.
  intros Hkind Henabled Hparams Htext Hchar. cbv zeta.
  unfold Executor.execute_action. rewrite Henabled. cbn [negb].
  unfold Executor.dispatch. rewrite Hkind, Hparams. unfold seq, lift. simpl.
  rewrite Htext. simpl. rewrite (any_above_127_ascii text Hchar).
  unfold type_text, external.
  destruct (driver_raises (log w) _); reflexivity.
Qed.

(** *** Whole runs *)

(** Every run ends the same way, whatever fails and whenever [stop()]
    is called: the executor is left not running, and after what the
    steps have logged (nothing of which is the end of the sequence)
    the sequence-complete callback is called, once, when it is
    installed. *)
Theorem run_always_ends stops self (sequence : ActionSequence) (w : World) :
  _is_running (snd (fst (execute_sequence stops self sequence w))) = false
  /\ exists delta,
      log (snd (execute_sequence stops self sequence w))
      = log w ++ delta
          ++ (if _on_sequence_complete self
              then [Notified SequenceComplete] else [])
      /\ Forall (within 0 (length (actions sequence))) delta.
Proof.
  unfold Executor.execute_sequence.
  destruct (loop_adds repr_other driver_raises stops (actions sequence) 0
              (set_running self true) true w) as (d & H & F).
  pose proof (loop_callbacks repr_other driver_raises stops (actions sequence)
                0 (set_running self true) true w) as Hcb.
  destruct (loop stops 0 (actions sequence) (set_running self true) true w)
    as [[s e] w'].
  cbn [fst snd] in *. split; [reflexivity|].
  exists d. rewrite notify_log, H, <- app_assoc.
  change (_on_sequence_complete (set_running e false))
    with (_on_sequence_complete e).
  rewrite (same_sequence_complete e (set_running self true) Hcb).
  auto.
Qed.

Lemma no_milestone (d : list event) :
  Forall (within 0 0) d -> List.filter is_milestone d = [].
Proof.
  induction 1 as [|e d He _ IH]; [reflexivity|].
  destruct e as [c|[a j|a j|x a|]]; simpl in *; try exact IH; lia.
Qed.

Lemma loop_in_turn stops (l : list Action) :
  forall (index : nat) self (success : bool) (w : World),
    _is_running self = true ->
    (forall j, stops j = false) ->
    _on_action_start self = true ->
    _on_action_complete self = true ->
    exists delta,
      log (snd (loop stops index l self success w)) = log w ++ delta
      /\ List.filter is_milestone delta = in_turn index l.
Proof.
  induction l as [|a l IH];
    intros index self success w Hrun Hstops Hstart Hcomplete.
  - exists []. simpl. rewrite app_nil_r. auto.
  - rewrite loop_step by exact Hrun. cbv zeta.
    rewrite Hstops, Hstart, Hcomplete. cbn [notify].
    set (w1 := record (Notified (ActionStart a index)) w).
    destruct (execute_action_adds repr_other driver_raises self a w1 0 0)
      as (d & Hd & Fd).
    destruct (execute_action self a w1) as [r w2]. cbn [fst snd] in *.
    destruct (IH (S index) self (if negb r then false else success)
                (record (Notified (ActionComplete a index)) w2)
                Hrun Hstops Hstart Hcomplete) as (d' & Hd' & Fd').
    exists (Notified (ActionStart a index) :: d
            ++ Notified (ActionComplete a index) :: d').
    split.
    + rewrite Hd'. cbn [record log]. rewrite Hd. unfold w1. cbn [record log].
      rewrite <- !app_assoc. reflexivity.
    + cbn [List.filter is_milestone]. rewrite List.filter_app.
      rewrite (no_milestone d Fd). cbn [app List.filter is_milestone].
      rewrite Fd'. reflexivity.
Qed.

(** In a run during which [stop()] is not called every action is
    started and completed, in the order of the sequence, each
    completion right after its own start among the notifications:
    enabled or not, successful or not. *)
Theorem every_action_in_turn stops self (sequence : ActionSequence) (w : World) :
  (forall j, stops j = false) ->
  _on_action_start self = true ->
  _on_action_complete self = true ->
  List.filter is_milestone
    (since w (snd (execute_sequence stops self sequence w)))
  = in_turn 0 (actions sequence).
Proof.
  intros Hstops Hstart Hcomplete.
  unfold Executor.execute_sequence.
  destruct (loop_in_turn stops (actions sequence) 0 (set_running self true)
              true w eq_refl Hstops Hstart Hcomplete) as (d & Hd & Fd).
  destruct (loop stops 0 (actions sequence) (set_running self true) true w)
    as [[s e] w'].
  cbn [fst snd] in *.
  erewrite since_app; cycle 1.
  { rewrite notify_log, Hd, <- app_assoc. reflexivity. }
  rewrite List.filter_app, Fd.
  destruct (_on_sequence_complete _); cbn; apply app_nil_r.
Qed.

(** With the error callback installed [execute_action] returns
    success exactly when it has reported no error. *)
Lemma execute_action_reports self (action : Action) (w : World) :
  _on_error self = true ->
  exists delta,
    log (snd (execute_action self action w)) = log w ++ delta
    /\ fst (execute_action self action w)
       = forallb (fun e => negb (is_error e)) delta.
Proof.
  intros Herr. unfold Executor.execute_action.
  destruct (negb (truthy (enabled action))).
  - exists []. simpl. rewrite app_nil_r. auto.
  - destruct (dispatch_adds repr_other driver_raises action w) as (d & H & F).
    assert (Hd : forallb (fun e => negb (is_error e)) d = true).
    { apply forallb_forall. intros e He.
      rewrite Forall_forall in F. apply list_elem_of_In in He.
      specialize (F e He). destruct e; [reflexivity | contradiction]. }
    destruct (Executor.dispatch repr_other driver_raises action w)
      as [[u|x] w']; simpl in *.
    + exists d. auto.
    + exists (d ++ [Notified (ActionError x action)]).
      rewrite Herr. cbn [notify record log]. rewrite H, <- app_assoc.
      split; [reflexivity|].
      rewrite forallb_app, Hd. reflexivity.
Qed.

Lemma loop_reports stops (l : list Action) :
  forall (index : nat) self (success : bool) (w : World),
    _is_running self = true ->
    (forall j, stops j = false) ->
    _on_error self = true ->
    exists delta,
      log (snd (loop stops index l self success w)) = log w ++ delta
      /\ fst (fst (loop stops index l self success w))
         = (success && forallb (fun e => negb (is_error e)) delta)%bool.
Proof.
  induction l as [|a l IH]; intros index self success w Hrun Hstops Herr.
  - exists []. simpl. rewrite app_nil_r, andb_true_r. auto.
  - rewrite loop_step by exact Hrun. cbv zeta. rewrite Hstops.
    set (w1 := notify (_on_action_start self) (ActionStart a index) w).
    destruct (execute_action_reports self a w1 Herr) as (d & Hd & Rd).
    destruct (execute_action self a w1) as [r w2]. cbn [fst snd] in *.
    set (w3 := notify (_on_action_complete self) (ActionComplete a index) w2).
    destruct (IH (S index) self (if negb r then false else success) w3
                Hrun Hstops Herr) as (d' & Hd' & Rd').
    exists ((if _on_action_start self
             then [Notified (ActionStart a index)] else [])
            ++ d
            ++ (if _on_action_complete self
                then [Notified (ActionComplete a index)] else [])
            ++ d').
    split.
    + rewrite Hd'. unfold w3. rewrite notify_log, Hd. unfold w1.
      rewrite notify_log, <- !app_assoc. reflexivity.
    + rewrite Rd'. rewrite !forallb_app, <- Rd.
      destruct (_on_action_start self), (_on_action_complete self), r,
        success; reflexivity.
Qed.

(** With the error callback installed, a run during which [stop()] is
    not called returns success exactly when no error was reported. *)
Theorem success_means_no_error
    stops self (sequence : ActionSequence) (w : World) :
  (forall j, stops j = false) ->
  _on_error self = true ->
  fst (fst (execute_sequence stops self sequence w))
  = forallb (fun e => negb (is_error e))
      (since w (snd (execute_sequence stops self sequence w))).
Proof.
  intros Hstops Herr. unfold Executor.execute_sequence.
  destruct (loop_reports stops (actions sequence) 0 (set_running self true)
              true w eq_refl Hstops Herr) as (d & Hd & Rd).
  destruct (loop stops 0 (actions sequence) (set_running self true) true w)
    as [[s e] w'].
  cbn [fst snd] in *.
  erewrite since_app; cycle 1.
  { rewrite notify_log, Hd, <- app_assoc. reflexivity. }
  rewrite Rd, forallb_app.
  destruct (_on_sequence_complete _); cbn; rewrite ?andb_true_r; reflexivity.
Qed.

Lemma loop_disabled stops (l : list Action) :
  Forall (fun a => truthy (enabled a) = false) l ->
  forall (index : nat) self (success : bool) (w : World),
    exists delta,
      log (snd (loop stops index l self success w)) = log w ++ delta
      /\ List.filter is_external delta = [].
Proof.
  induction 1 as [|a l Ha _ IH]; intros index self success w.
  - exists []. simpl. rewrite app_nil_r. auto.
  - destruct (_is_running self) eqn:Hrun.
    + rewrite loop_step by exact Hrun. cbv zeta.
      rewrite (execute_action_disabled repr_other driver_raises self a _ Ha).
      cbn [fst snd negb].
      destruct (IH (S index) (if stops index then stop self else self)
                  success
                  (notify (_on_action_complete self) (ActionComplete a index)
                     (notify (_on_action_start self) (ActionStart a index) w)))
        as (d & Hd & Fd).
      eexists. split.
      * rewrite Hd, !notify_log, <- !app_assoc. reflexivity.
      * rewrite !List.filter_app, Fd.
        destruct (_on_action_start self), (_on_action_complete self);
          reflexivity.
    + rewrite loop_stopped by exact Hrun.
      exists []. simpl. rewrite app_nil_r. auto.
Qed.

(** A sequence whose actions are all disabled makes no external call,
    whenever [stop()] is called. *)
Theorem disabled_actions_call_nothing
    stops self (sequence : ActionSequence) (w : World) :
  Forall (fun a => truthy (enabled a) = false) (actions sequence) ->
  List.filter is_external
    (since w (snd (execute_sequence stops self sequence w)))
  = [].
Proof.
  intros Hall. unfold Executor.execute_sequence.
  destruct (loop_disabled stops (actions sequence) Hall 0
              (set_running self true) true w) as (d & Hd & Fd).
  destruct (loop stops 0 (actions sequence) (set_running self true) true w)
    as [[s e] w'].
  cbn [fst snd] in *.
  erewrite since_app; cycle 1.
  { rewrite notify_log, Hd, <- app_assoc. reflexivity. }
  rewrite List.filter_app, Fd.
  destruct (_on_sequence_complete _); reflexivity.
Qed.

(** An enabled action whose parameters are not a dict fails before
    anything is asked of the driver: no external call is made, the
    error callback gets the [AttributeError], and the result is
    failure. *)
Theorem bad_params_fail_before_driver self (action : Action) (w : World) :
  truthy (enabled action) = true ->
  (forall d, params action <> PDict d) ->
  execute_action self action w
  = (false, notify (_on_error self) (ActionError AttributeError action) w).
Proof.
  intros He Hp. unfold Executor.execute_action. rewrite He. cbn [negb].
  unfold Executor.dispatch.
  destruct (params action) as [| | | | | |d];
    try (destruct (action_type action); reflexivity).
  destruct (Hp d). reflexivity.
Qed.

(** *** Actions made by the factory functions *)

Lemma created (uuid : pystr) (kind : ActionType)
    (ps : list (pystr * pyval)) (a : Action) :
  create repr_other uuid kind ps = Ok a ->
  action_type a = kind /\ params a = PDict ps /\ enabled a = PBool true.
Proof.
  intros H. apply ActionModelMore.Action_new_fields in H. tauto.
Qed.

Ltac dispatch_created H :=
  apply created in H; destruct H as (Hk & Hp & He);
  split; [exact He|]; intros w;
  unfold Executor.dispatch; rewrite Hk, Hp; reflexivity.

(** Each factory function stores its arguments under the keys that
    the executor reads for the kind: an action that a factory returns
    is enabled, and executing it hands the factory's arguments to the
    driver, in one call of the kind's method (for text, to the
    delivery that the text calls for; for a hotkey, the keys
    unpacked). *)
Theorem factories_feed_dispatch (uuid : pystr) :
  (forall x y button a,
      create_mouse_click repr_other uuid x y button = Ok a ->
      enabled a = PBool true
      /\ forall w,
          dispatch a w = external driver_raises (MouseClick x y button) w)
  /\ (forall x y a,
         create_mouse_double_click repr_other uuid x y = Ok a ->
         enabled a = PBool true
         /\ forall w,
             dispatch a w = external driver_raises (MouseDoubleClick x y) w)
  /\ (forall x y a,
         create_mouse_right_click repr_other uuid x y = Ok a ->
         enabled a = PBool true
         /\ forall w,
             dispatch a w = external driver_raises (MouseRightClick x y) w)
  /\ (forall x y duration a,
         create_mouse_move repr_other uuid x y duration = Ok a ->
         enabled a = PBool true
         /\ forall w,
             dispatch a w
             = external driver_raises (MouseMoveTo x y duration) w)
  /\ (forall x y duration a,
         create_mouse_drag repr_other uuid x y duration = Ok a ->
         enabled a = PBool true
         /\ forall w,
             dispatch a w
             = external driver_raises (MouseDragTo x y duration) w)
  /\ (forall amount x y a,
         create_mouse_scroll repr_other uuid amount x y = Ok a ->
         enabled a = PBool true
         /\ forall w,
             dispatch a w
             = external driver_raises (MouseScroll amount x y) w)
  /\ (forall text interval a,
         create_keyboard_type repr_other uuid text interval = Ok a ->
         enabled a = PBool true
         /\ forall w,
             dispatch a w
             = (do elements <- lift (iterate text);
                do non_ascii <- lift (any_above_127 elements);
                if non_ascii
                then type_unicode repr_other driver_raises text interval
                else type_text driver_raises text interval) w)
  /\ (forall key presses a,
         create_keyboard_press repr_other uuid key presses = Ok a ->
         enabled a = PBool true
         /\ forall w,
             dispatch a w
             = external driver_raises (KeyboardPressKey key presses) w)
  /\ (forall keys a,
         create_keyboard_hotkey repr_other uuid keys = Ok a ->
         enabled a = PBool true
         /\ forall w,
             dispatch a w
             = (do unpacked <- lift (iterate keys);
                external driver_raises (KeyboardHotkey unpacked)) w)
  /\ (forall seconds a,
         create_delay repr_other uuid seconds = Ok a ->
         enabled a = PBool true
         /\ forall w, dispatch a w = external driver_raises (Sleep seconds) w).
Proof.
  repeat match goal with |- _ /\ _ => split end; intros;
    match goal with
    | H : _ = Ok _ |- _ => dispatch_created H
    end.
Qed.
End Outside.

Lemma ascii_text_is_typed_witness :
  Executor.execute_action no_repr never_raises listening
    (mkAction KEYBOARD_TYPE (PDict [(py "text", PStr (py "hello"))])
       (PStr (py "greet")) (PStr (py "t2")) (PBool true))
    kept_world
  = (true,
     record (Called (Typewrite (PStr (py "hello")) float_0_0)) kept_world).
Proof.
  apply (ascii_text_is_typed no_repr never_raises listening
           (mkAction KEYBOARD_TYPE (PDict [(py "text", PStr (py "hello"))])
              (PStr (py "greet")) (PStr (py "t2")) (PBool true))
           [(py "text", PStr (py "hello"))] (py "hello") kept_world);
    try reflexivity.
  repeat constructor; vm_compute; discriminate.
Defined.

Lemma every_action_in_turn_witness :
  List.filter is_milestone
    (since kept_world
       (snd (Executor.execute_sequence no_repr never_raises never_stopped
               listening three_steps kept_world)))
  = in_turn 0 (actions three_steps).
Proof.
  apply (every_action_in_turn no_repr never_raises never_stopped listening
           three_steps kept_world);
    intros; reflexivity.
Defined.

Lemma success_means_no_error_witness :
  fst (fst (Executor.execute_sequence no_repr paste_raises never_stopped
              listening hello_then_press kept_world))
  = forallb (fun e => negb (is_error e))
      (since kept_world
         (snd (Executor.execute_sequence no_repr paste_raises never_stopped
                 listening hello_then_press kept_world))).
Proof.
  apply (success_means_no_error no_repr paste_raises never_stopped listening
           hello_then_press kept_world);
    intros; reflexivity.
Defined.

Lemma disabled_actions_call_nothing_witness :
  List.filter is_external
    (since kept_world
       (snd (Executor.execute_sequence no_repr paste_raises stopped_at_first
               listening
               (demo_sequence [disabled type_hello; disabled (press "a2")])
               kept_world)))
  = [].
Proof.
  apply (disabled_actions_call_nothing no_repr paste_raises stopped_at_first
           listening
           (demo_sequence [disabled type_hello; disabled (press "a2")])
           kept_world).
  repeat constructor.
Defined.

Lemma bad_params_fail_before_driver_witness :
  Executor.execute_action no_repr never_raises listening
    (mkAction DELAY (PList []) (PStr (py "wait")) (PStr (py "d1"))
       (PBool true))
    kept_world
  = (false,
     notify true
       (ActionError AttributeError
          (mkAction DELAY (PList []) (PStr (py "wait")) (PStr (py "d1"))
             (PBool true)))
       kept_world).
Proof.
  apply (bad_params_fail_before_driver no_repr never_raises listening
           (mkAction DELAY (PList []) (PStr (py "wait")) (PStr (py "d1"))
              (PBool true))
           kept_world);
    [reflexivity | intros d; discriminate].
Defined.

End ExecutorMore.

(** ** The power commands *)
Module ShutdownFacts.
Import Py Shutdown.

(** [restart] passes its options as [shutdown] does: the command it
    runs is the one [shutdown] runs for the same arguments with [/r]
    in the place of [/s], and off Windows neither runs anything and
    both answer [False]. *)
Theorem restart_like_shutdown repr_other (windows : bool)
    (run_raises : list pyval -> bool) (delay force message : pyval) :
  snd (restart repr_other windows run_raises delay force message)
  = map (fun cmd => <[1%nat := PStr (py "/r")]> cmd)
      (snd (shutdown repr_other windows run_raises delay force message))
  /\ (windows = false ->
      shutdown repr_other windows run_raises delay force message = (false, [])
      /\ restart repr_other windows run_raises delay force message
         = (false, [])).
Proof.
  unfold restart, shutdown, run_hidden. split.
  - destruct windows; [|reflexivity]. cbn [negb].
    destruct (truthy force), (truthy message);
      repeat match goal with
        | |- context [if run_raises ?c then _ else _] =>
            destruct (run_raises c)
        end;
      reflexivity.
  - intros ->. split; reflexivity.
Qed.

End ShutdownFacts.
